(** * Verification of [db_stats.py]: Neo4j node, index and relationship statistics

    The development is a shallow embedding of [src/db_stats.py].

    - Python values that flow through the program (query fields, index
      catalog entries, table cells) are the inductive [pyval]; the
      dynamically typed operations the program applies to them ([or],
      [in], [str.join], [str.strip], [dict.get], [Record.get],
      [Record.__getitem__]) are written out with the errors they raise.
    - The database, the environment variables and the terminal are the
      program's environment: a [world] gives the outcome of every call the
      program makes, and the program is a function of it in the small
      state-and-exception monad [M], whose state holds standard input,
      the local variable [stats] of [main] and the trace of observable events.
    - The two [Cypher] queries whose text is part of the source are given
      an executable meaning over a finite property graph. *)

From Stdlib Require Import ZArith Ascii String List Permutation Sorted Lia.
From stdpp Require Import base tactics option list sorting strings gmap.

Set Warnings "-register-all".
Local Open Scope string_scope.
Local Open Scope list_scope.

(** ** Python values *)

Module Py.

(** The values the program meets: [None], integers, strings (sequences of
    code points below 256) and lists.  On these Python's [==] is structural
    equality. *)
Inductive pyval : Type :=
| PNone
| PInt (z : Z)
| PStr (s : string)
| PList (l : list pyval).

(** The exceptions that can be raised; all are subclasses of [Exception]. *)
Inductive exn : Type :=
| DriverError (msg : string)   (* raised by the neo4j driver or the database *)
| KeyError (key : string)      (* [record[key]] on an absent field *)
| TypeError                    (* ill-typed operand of [in] or [join] *)
| EOFError                     (* [input()] at the end of standard input *)
| TabulateError (msg : string) (* raised by the table renderer *).

Inductive result (A : Type) : Type :=
| Ok (a : A)
| Raise (e : exn).
Arguments Ok {A} a.
Arguments Raise {A} e.

Definition rbind {A B} (r : result A) (k : A -> result B) : result B :=
  match r with
  | Ok a => k a
  | Raise e => Raise e
  end.

(** [a == b] *)
Fixpoint py_eqb (a b : pyval) : bool :=
  match a, b with
  | PNone, PNone => true
  | PInt x, PInt y => Z.eqb x y
  | PStr s, PStr t => String.eqb s t
  | PList l, PList m =>
      (fix go (l m : list pyval) {struct l} : bool :=
         match l, m with
         | [], [] => true
         | x :: l', y :: m' => py_eqb x y && go l' m'
         | _, _ => false
         end) l m
  | _, _ => false
  end.

(** [v is None] *)
Definition is_none (v : pyval) : bool :=
  match v with PNone => true | _ => false end.

(** [bool(v)] *)
Definition truthy (v : pyval) : bool :=
  match v with
  | PNone => false
  | PInt z => negb (Z.eqb z 0)
  | PStr s => negb (String.eqb s "")
  | PList l => match l with [] => false | _ => true end
  end.

(** [a or b] *)
Definition py_or (a b : pyval) : pyval := if truthy a then a else b.

(** [t in s] for two strings: [t] occurs in [s] as a substring. *)
Definition substringb (t s : string) : bool :=
  match String.index 0 t s with Some _ => true | None => false end.

(** [x in c]: membership in a list, substring test in a string, and
    [TypeError] for a container that is not iterable or for a non-string
    looked up in a string. *)
Definition py_in (x c : pyval) : result bool :=
  match c with
  | PList l => Ok (existsb (py_eqb x) l)
  | PStr s => match x with
              | PStr t => Ok (substringb t s)
              | _ => Raise TypeError
              end
  | PNone | PInt _ => Raise TypeError
  end.

(** The one-character strings of a string, as iterating over it gives. *)
Fixpoint chars (s : string) : list string :=
  match s with
  | EmptyString => []
  | String c s' => String c EmptyString :: chars s'
  end.

(** [sep.join] over a list of strings. *)
Fixpoint join_strings (sep : string) (l : list string) : string :=
  match l with
  | [] => ""
  | [x] => x
  | x :: l' => x +:+ sep +:+ join_strings sep l'
  end.

(** The items of a list if they are all strings. *)
Fixpoint all_strings (l : list pyval) : option (list string) :=
  match l with
  | [] => Some []
  | PStr s :: l' => option_map (cons s) (all_strings l')
  | _ :: _ => None
  end.

(** [sep.join(v)]: [v] must be an iterable of strings. *)
Definition py_join (sep : string) (v : pyval) : result string :=
  match v with
  | PList l => match all_strings l with
               | Some ss => Ok (join_strings sep ss)
               | None => Raise TypeError
               end
  | PStr s => Ok (join_strings sep (chars s))
  | PNone | PInt _ => Raise TypeError
  end.

(** [c.isspace()] for a code point below 256. *)
Definition isspace (c : ascii) : bool :=
  let n := nat_of_ascii c in
  (((9 <=? n) && (n <=? 13)) || ((28 <=? n) && (n <=? 32))
   || (n =? 133) || (n =? 160))%nat.

Fixpoint lstrip (s : string) : string :=
  match s with
  | EmptyString => EmptyString
  | String c s' => if isspace c then lstrip s' else s
  end.

(** [rstrip] drops a character when it is white space and everything after
    it has been dropped. *)
Fixpoint rstrip (s : string) : string :=
  match s with
  | EmptyString => EmptyString
  | String c s' =>
      match rstrip s' with
      | EmptyString => if isspace c then EmptyString else String c EmptyString
      | t => String c t
      end
  end.

(** [s.strip()] *)
Definition strip (s : string) : string := rstrip (lstrip s).

(** A [dict] with string keys, as [Result.data()] returns them, is a
    [gmap string pyval].  [d.get(k, default)] *)
Definition dict_get (d : gmap string pyval) (k : string) (default : pyval) : pyval :=
  match d !! k with Some v => v | None => default end.

(** A neo4j [Record]: the fields of one result row, in order.  Lookup by
    name finds the first field of that name. *)
Definition record := list (string * pyval).

Fixpoint field (r : record) (k : string) : option pyval :=
  match r with
  | [] => None
  | (k', v) :: r' => if String.eqb k' k then Some v else field r' k
  end.

(** [bool(record)]: a record is a tuple, true when it is not empty. *)
Definition record_truthy (r : record) : bool :=
  match r with [] => false | _ => true end.

(** [record.get(k)] *)
Definition record_get (r : record) (k : string) : pyval :=
  match field r k with Some v => v | None => PNone end.

(** [record[k]] *)
Definition record_item (r : record) (k : string) : result pyval :=
  match field r k with Some v => Ok v | None => Raise (KeyError k) end.

End Py.
Export Py.


(** ** The environment and the monad of the program *)

(** The three statements the program sends: the label count query of
    [get_node_stats], the index catalog listing (SHOW INDEXES), and the
    relationship count query of [get_relationship_stats]. *)
Inductive query : Type :=
| LabelCountQuery
| IndexCatalogQuery
| RelationshipCountQuery.

(** What the database does with a statement: [session.run] raises, or it
    returns a result that yields [rows] and then ends, or breaks with an
    exception after them. *)
Inductive outcome (A : Type) : Type :=
| RunFails (e : exn)
| Rows (rows : list A) (broken : option exn).
Arguments RunFails {A} e.
Arguments Rows {A} rows broken.

Record world : Type := {
  environ : gmap string string;          (* the process environment *)
  driver_outcome : option exn;           (* [GraphDatabase.driver] raising *)
  label_outcome : outcome record;
  index_outcome : outcome (gmap string pyval);
  rel_outcome : outcome record;
}.

(** The object [Neo4jStats(uri, username, password)]; its driver is
    identified by the credentials it was opened with. *)
Record Neo4jStats : Type := {
  driver : option string * option string * option string;
}.

Inductive event : Type :=
| EvPrint (s : string)                 (* [print] of a literal *)
| EvPrintExn (pre : string) (e : exn)  (* [print(f"<pre>{str(e)}")] *)
| EvTable (s : string)                 (* [print(tabulate(...))] *)
| EvPrompt (s : string)                (* the prompt [input] writes *)
| EvDriverOpen (uri username password : option string)
| EvDriverClose
| EvSessionOpen
| EvSessionClose
| EvRun (q : query).

Record state : Type := {
  stdin : list string;           (* the lines still to be read *)
  stats_var : option Neo4jStats; (* the local variable [stats] of [main] *)
  trace : list event;
}.

Definition M (A : Type) : Type := state -> result A * state.

Definition ret {A} (a : A) : M A := fun s => (Ok a, s).

Definition raise {A} (e : exn) : M A := fun s => (Raise e, s).

Definition bind {A B} (m : M A) (k : A -> M B) : M B :=
  fun s => match m s with
           | (Ok a, s') => k a s'
           | (Raise e, s') => (Raise e, s')
           end.

Declare Scope prog_scope.
Delimit Scope prog_scope with prog.
Notation "x <- m ;; k" := (bind m (fun x => k))
  (at level 100, m at next level, right associativity) : prog_scope.
Notation "m ;; k" := (bind m (fun _ => k))
  (at level 100, right associativity) : prog_scope.
Local Open Scope prog_scope.

(** [try: m  except Exception as e: h e] *)
Definition try_except {A} (m : M A) (h : exn -> M A) : M A :=
  fun s => match m s with
           | (Ok a, s') => (Ok a, s')
           | (Raise e, s') => h e s'
           end.

(** [try: m  finally: f]: [f] runs on every exit of [m]; an exception of
    [f] replaces the outcome of [m]. *)
Definition try_finally {A} (m : M A) (f : M unit) : M A :=
  fun s => match m s with
           | (r, s') => match f s' with
                        | (Ok _, s'') => (r, s'')
                        | (Raise e, s'') => (Raise e, s'')
                        end
           end.

Definition lift {A} (r : result A) : M A := fun s => (r, s).

Definition emit (e : event) : M unit :=
  fun s => (Ok tt, {| stdin := stdin s; stats_var := stats_var s;
                      trace := trace s ++ [e] |}).

Definition print (s : string) : M unit := emit (EvPrint s).

Definition get_stats : M (option Neo4jStats) := fun s => (Ok (stats_var s), s).

Definition set_stats (v : option Neo4jStats) : M unit :=
  fun s => (Ok tt, {| stdin := stdin s; stats_var := v; trace := trace s |}).

(** [input(prompt)] *)
Definition input (prompt : string) : M string :=
  fun s =>
    let tr := trace s ++ [EvPrompt prompt] in
    match stdin s with
    | [] => (Raise EOFError, {| stdin := []; stats_var := stats_var s; trace := tr |})
    | line :: rest => (Ok line, {| stdin := rest; stats_var := stats_var s; trace := tr |})
    end.

(** [with self.driver.session() as session: body] *)
Definition with_session {A} (body : M A) : M A :=
  emit EvSessionOpen ;; try_finally body (emit EvSessionClose).

(** [session.run(q)] *)
Definition session_run {A} (q : query) (o : outcome A) : M (list A * option exn) :=
  emit (EvRun q) ;;
  match o with
  | RunFails e => raise e
  | Rows rows broken => ret (rows, broken)
  end.

(** [result.data()]: all the records, or the exception that breaks the
    stream. *)
Definition result_data {A} (result : list A * option exn) : M (list A) :=
  match snd result with
  | Some e => raise e
  | None => ret (fst result)
  end.

(** [l or []] on a list *)
Definition list_or_empty {A} (l : list A) : list A :=
  match l with [] => [] | _ => l end.

(** [try: for record in result: body  except Exception as e: ...]: the
    accumulator as the loop leaves it, and the exception caught, if any. *)
Fixpoint iterate {A S} (body : A -> S -> result S) (rows : list A)
    (broken : option exn) (acc : S) : S * option exn :=
  match rows with
  | [] => (acc, broken)
  | r :: rows' =>
      match body r acc with
      | Ok acc' => iterate body rows' broken acc'
      | Raise e => (acc, Some e)
      end
  end.

(** The handler of such a [try], which prints a warning. *)
Definition warn (pre : string) (caught : option exn) : M unit :=
  match caught with
  | Some e => emit (EvPrintExn pre e)
  | None => ret tt
  end.

(** ** The program *)

Record node_stat : Type := { Label : pyval; Count : pyval }.

(** A row of the node table, with the keys "Node Label", "Count",
    "Index Name", "Index Type" and "Indexed Property". *)
Record node_row : Type := {
  Node_Label : pyval;
  Node_Count : pyval;
  Index_Name : pyval;
  Index_Type : pyval;
  Indexed_Property : string;
}.

(** A row of the relationship table, with the keys "Relationship",
    "Start Node", "End Node" and "Count". *)
Record rel_row : Type := {
  Relationship : pyval;
  Start_Node : pyval;
  End_Node : pyval;
  Rel_Count : pyval;
}.

(** The body of the first loop of [get_node_stats]. *)
Definition node_stats_step (record : record) (node_stats : list node_stat)
  : result (list node_stat) :=
  if record_truthy record && negb (is_none (record_get record "label")) then
    rbind (record_item record "label") (fun l =>
    rbind (record_item record "count") (fun c =>
    Ok (node_stats ++ [{| Label := l; Count := c |}])))
  else Ok node_stats.

(** [[idx for idx in index_info if label in (idx.get("labelsOrTypes") or [])]] *)
Fixpoint label_indexes (label : pyval) (index_info : list (gmap string pyval))
  : result (list (gmap string pyval)) :=
  match index_info with
  | [] => Ok []
  | idx :: rest =>
      rbind (py_in label (py_or (dict_get idx "labelsOrTypes" PNone) (PList []))) (fun b =>
      rbind (label_indexes label rest) (fun l =>
      Ok (if b then idx :: l else l)))
  end.

(** The row appended for one index of a label. *)
Definition index_row (node : node_stat) (idx : gmap string pyval) : result node_row :=
  rbind (py_join ", " (dict_get idx "properties" (PList []))) (fun props =>
  Ok {| Node_Label := Label node;
        Node_Count := Count node;
        Index_Name := dict_get idx "name" (PStr "N/A");
        Index_Type := dict_get idx "type" (PStr "N/A");
        Indexed_Property := props |}).

(** The row appended for a label without an index. *)
Definition no_index_row (node : node_stat) : node_row :=
  {| Node_Label := Label node;
     Node_Count := Count node;
     Index_Name := PStr "No Index";
     Index_Type := PStr "N/A";
     Indexed_Property := "N/A" |}.

(** [for idx in label_indexes: final_stats.append({...})] *)
Fixpoint append_index_rows (node : node_stat) (idxs : list (gmap string pyval))
    (final_stats : list node_row) : result (list node_row) :=
  match idxs with
  | [] => Ok final_stats
  | idx :: rest =>
      rbind (index_row node idx) (fun row =>
      append_index_rows node rest (final_stats ++ [row]))
  end.

(** The body of the loop that combines node counts with index information. *)
Definition combine_step (index_info : list (gmap string pyval)) (node : node_stat)
    (final_stats : list node_row) : result (list node_row) :=
  rbind (label_indexes (Label node) index_info) (fun idxs =>
  match idxs with
  | _ :: _ => append_index_rows node idxs final_stats
  | [] => Ok (final_stats ++ [no_index_row node])
  end).

(** [for node in node_stats: ...] *)
Fixpoint combine (index_info : list (gmap string pyval)) (node_stats : list node_stat)
    (final_stats : list node_row) : result (list node_row) :=
  match node_stats with
  | [] => Ok final_stats
  | node :: rest =>
      rbind (combine_step index_info node final_stats) (combine index_info rest)
  end.

(** The body of the loop of [get_relationship_stats]. *)
Definition rel_stats_step (record : record) (rel_stats : list rel_row)
  : result (list rel_row) :=
  if record_truthy record && negb (is_none (record_get record "relationshipType")) then
    rbind (record_item record "relationshipType") (fun r =>
    rbind (record_item record "startLabel") (fun s =>
    rbind (record_item record "endLabel") (fun e =>
    rbind (record_item record "count") (fun c =>
    Ok (rel_stats ++ [{| Relationship := r; Start_Node := s;
                         End_Node := e; Rel_Count := c |}])))))
  else Ok rel_stats.

Definition nl : string := String (ascii_of_nat 10) EmptyString.

Definition credentials : Type := option string * option string * option string.

Section Program.

(** The database, environment and terminal the program runs against. *)
Variable w : world.

(** The table renderer [tabulate(rows, headers="keys", tablefmt="grid")],
    an external collaborator. *)
Variable tabulate_nodes : list node_row -> result string.
Variable tabulate_rels : list rel_row -> result string.

(** [os.getenv(name)] *)
Definition getenv (name : string) : option string := environ w !! name.

(** [Neo4jStats.__init__] *)
Definition Neo4jStats_init (uri username password : option string) : M Neo4jStats :=
  match driver_outcome w with
  | Some e => raise e
  | None =>
      emit (EvDriverOpen uri username password) ;;
      ret {| driver := (uri, username, password) |}
  end.

(** [Neo4jStats.close] *)
Definition close (self : Neo4jStats) : M unit := emit EvDriverClose.

Definition get_node_stats (self : Neo4jStats) : M (list node_row) :=
  with_session (
    result <- session_run LabelCountQuery (label_outcome w) ;;
    let node_stats := iterate node_stats_step (fst result) (snd result) [] in
    warn "Warning: Error processing node labels: " (snd node_stats) ;;
    index_info <-
      try_except
        (result <- session_run IndexCatalogQuery (index_outcome w) ;;
         data <- result_data result ;;
         ret (list_or_empty data))
        (fun e =>
           emit (EvPrintExn "Warning: Could not fetch index information: " e) ;;
           ret []) ;;
    final_stats <- lift (combine index_info (fst node_stats) []) ;;
    ret (list_or_empty final_stats)).

Definition get_relationship_stats (self : Neo4jStats) : M (list rel_row) :=
  with_session (
    result <- session_run RelationshipCountQuery (rel_outcome w) ;;
    let rel_stats := iterate rel_stats_step (fst result) (snd result) [] in
    warn "Warning: Error processing relationships: " (snd rel_stats) ;;
    ret (list_or_empty (fst rel_stats))).

(** The loop [while True: ...] of [get_db_choice], by recursion on the
    lines of standard input: every round reads one line, and [input]
    raises [EOFError] when none is left. *)
Fixpoint choice_loop (lines : list string) (stats : option Neo4jStats)
    (tr : list event) : result credentials * state :=
  let tr := tr ++ [EvPrompt (nl +:+ "Select database (1 or 2): ")] in
  match lines with
  | [] => (Raise EOFError, {| stdin := []; stats_var := stats; trace := tr |})
  | line :: rest =>
      let choice := strip line in
      if String.eqb choice "1" then
        (Ok (getenv "LOCAL_NEO4J_URI",
             getenv "LOCAL_NEO4J_USERNAME",
             getenv "LOCAL_NEO4J_PASSWORD"),
         {| stdin := rest; stats_var := stats; trace := tr |})
      else if String.eqb choice "2" then
        (Ok (getenv "NEO4J_URI",
             getenv "NEO4J_USERNAME",
             getenv "NEO4J_PASSWORD"),
         {| stdin := rest; stats_var := stats; trace := tr |})
      else
        choice_loop rest stats
          (tr ++ [EvPrint "Invalid choice. Please select 1 or 2."])
  end.

Definition get_db_choice : M credentials :=
  print (nl +:+ "Available databases:") ;;
  print "1. Local Database" ;;
  print "2. Remote Database" ;;
  (fun s => choice_loop (stdin s) (stats_var s) (trace s)).

Definition main : M unit :=
  creds <- get_db_choice ;;
  set_stats None ;;
  try_finally
    (try_except
       (stats <- Neo4jStats_init (fst (fst creds)) (snd (fst creds)) (snd creds) ;;
        set_stats (Some stats) ;;
        node_stats <- get_node_stats stats ;;
        print (nl +:+ "Node Statistics:") ;;
        table <- lift (tabulate_nodes node_stats) ;;
        emit (EvTable table) ;;
        rel_stats <- get_relationship_stats stats ;;
        print (nl +:+ "Relationship Statistics:") ;;
        table <- lift (tabulate_rels rel_stats) ;;
        emit (EvTable table))
       (fun e => emit (EvPrintExn "Error: " e)))
    (stats <- get_stats ;;
     match stats with
     | Some stats => close stats
     | None => ret tt
     end).

End Program.

(** ** The two Cypher queries over a property graph *)

(** A relationship with its type and the labels of its two end nodes, in
    the order [labels(n)] lists them. *)
Record edge : Type := {
  rel_type : string;
  start_labels : list string;
  end_labels : list string;
}.

Record graph : Type := {
  nodes : list (list string);   (* the labels of every node *)
  edges : list edge;
}.

(** The number of rows of [rows] in the group of [k]. *)
Definition group_size `{EqDecision K} (k : K) (rows : list K) : nat :=
  length (filter (fun k' => k' = k) rows).

(** Grouping with a count aggregate: one pair per distinct key. *)
Definition group_count `{EqDecision K} (rows : list K) : list (K * nat) :=
  map (fun k => (k, group_size k rows)) (remove_dups rows).

(** [MATCH (n) UNWIND labels(n) as label]: one row per node and label. *)
Definition unwind_labels (g : graph) : list string := concat (nodes g).

Definition label_le (a b : string * nat) : Prop := String.le (fst a) (fst b).

Global Instance label_le_dec : RelDecision label_le.
Proof. intros a b. unfold label_le. apply _. Defined.

Definition label_record (row : string * nat) : record :=
  [("label", PStr (fst row)); ("count", PInt (Z.of_nat (snd row)))].

(** [WITH DISTINCT label, count(n) as count RETURN label, count ORDER BY label] *)
Definition label_count_query (g : graph) : list record :=
  map label_record (merge_sort label_le (group_count (unwind_labels g))).

(** [CASE WHEN size(labels(n)) > 0 THEN head(labels(n)) ELSE '(no label)' END] *)
Definition first_label (labels : list string) : string :=
  match labels with
  | l :: _ => l
  | [] => "(no label)"
  end.

(** [WITH type(r) as relType, ... as startLabel, ... as endLabel] *)
Definition edge_key (e : edge) : string * string * string :=
  (rel_type e, first_label (start_labels e), first_label (end_labels e)).

Definition count_ge (a b : string * string * string * nat) : Prop := snd b <= snd a.

Global Instance count_ge_dec : RelDecision count_ge.
Proof. intros a b. unfold count_ge. apply _. Defined.

Definition rel_record (row : string * string * string * nat) : record :=
  [("relationshipType", PStr (fst (fst (fst row))));
   ("startLabel", PStr (snd (fst (fst row))));
   ("endLabel", PStr (snd (fst row)));
   ("count", PInt (Z.of_nat (snd row)))].

(** [WITH relType, startLabel, endLabel, count( * ) as count RETURN ... ORDER BY count DESC] *)
Definition relationship_count_query (g : graph) : list record :=
  map rel_record (merge_sort count_ge (group_count (map edge_key (edges g)))).

(** The row [get_relationship_stats] makes of a group. *)
Definition rel_row_of (row : string * string * string * nat) : rel_row :=
  {| Relationship := PStr (fst (fst (fst row)));
     Start_Node := PStr (snd (fst (fst row)));
     End_Node := PStr (snd (fst row));
     Rel_Count := PInt (Z.of_nat (snd row)) |}.

(** ** Concrete inputs *)

Definition init_state (lines : list string) : state :=
  {| stdin := lines; stats_var := None; trace := [] |}.

Definition idx1 : gmap string pyval :=
  list_to_map [("name", PStr "idx1");
               ("labelsOrTypes", PList [PStr "Person"]);
               ("properties", PList [PStr "email"])].

Definition example_label_counts : list node_stat :=
  [{| Label := PStr "Person"; Count := PInt 10 |};
   {| Label := PStr "Company"; Count := PInt 3 |}].

Definition example_graph : graph :=
  {| nodes := [["Person"]; ["Person"; "Employee"]; ["Company"]; []];
     edges := [{| rel_type := "KNOWS"; start_labels := ["Person"]; end_labels := ["Person"; "Employee"] |};
               {| rel_type := "WORKS_AT"; start_labels := ["Person"]; end_labels := ["Company"] |};
               {| rel_type := "KNOWS"; start_labels := ["Person"; "Employee"]; end_labels := ["Person"] |};
               {| rel_type := "OWNS"; start_labels := []; end_labels := ["Company"] |}] |}.

Definition example_env : gmap string string :=
  list_to_map [("LOCAL_NEO4J_URI", "bolt://localhost:7687");
               ("LOCAL_NEO4J_USERNAME", "neo4j");
               ("LOCAL_NEO4J_PASSWORD", "secret");
               ("NEO4J_URI", "neo4j+s://db.example");
               ("NEO4J_USERNAME", "remote");
               ("NEO4J_PASSWORD", "hunter2")].

(** The world [w] with another answer to the label count query, or to the
    relationship count query. *)
Definition with_label_outcome (w : world) (o : outcome record) : world :=
  {| environ := environ w;
     driver_outcome := driver_outcome w;
     label_outcome := o;
     index_outcome := index_outcome w;
     rel_outcome := rel_outcome w |}.

Definition with_rel_outcome (w : world) (o : outcome record) : world :=
  {| environ := environ w;
     driver_outcome := driver_outcome w;
     label_outcome := label_outcome w;
     index_outcome := index_outcome w;
     rel_outcome := o |}.

(** A database that answers every query over [g] with the catalog [idxs]. *)
Definition healthy_world (g : graph) (idxs : list (gmap string pyval)) : world :=
  {| environ := example_env;
     driver_outcome := None;
     label_outcome := Rows (label_count_query g) None;
     index_outcome := Rows idxs None;
     rel_outcome := Rows (relationship_count_query g) None |}.

Definition no_table {A} (rows : list A) : result string := Ok "".

Definition label_count_record (label : string) (count : Z) : record :=
  [("label", PStr label); ("count", PInt count)].

(** The database of the worked example: the label counts Person 10 and
    Company 3, in this order, and the single index [idx1]. *)
Definition example_world : world :=
  {| environ := example_env;
     driver_outcome := None;
     label_outcome := Rows [label_count_record "Person" 10;
                            label_count_record "Company" 3] None;
     index_outcome := Rows [idx1] None;
     rel_outcome := Rows [] None |}.

(** The same label counts with a count of zero for Person, and a second
    index on Person. *)
Definition idx2 : gmap string pyval :=
  list_to_map [("name", PStr "idx2");
               ("type", PStr "RANGE");
               ("labelsOrTypes", PList [PStr "Person"; PStr "Company"]);
               ("properties", PList [PStr "name"; PStr "born"])].

Definition lookup_index : gmap string pyval :=
  list_to_map [("name", PStr "node_label_lookup");
               ("type", PStr "LOOKUP");
               ("labelsOrTypes", PNone);
               ("properties", PNone)].

Definition zero_count_world : world :=
  {| environ := example_env;
     driver_outcome := None;
     label_outcome := Rows [label_count_record "Movie" 7;
                            label_count_record "Person" 0] None;
     index_outcome := Rows [idx1; lookup_index; idx2] None;
     rel_outcome := Rows [] None |}.

(** The example database when the catalog listing fails. *)
Definition no_catalog_world : world :=
  {| environ := example_env;
     driver_outcome := None;
     label_outcome := Rows [label_count_record "Person" 10;
                            label_count_record "Company" 3] None;
     index_outcome := RunFails (DriverError "catalog unavailable");
     rel_outcome := Rows [] None |}.

(** A label count query whose second record has a null label and whose
    fourth has no label field, and a relationship query with a null type. *)
Definition null_label_world : world :=
  {| environ := example_env;
     driver_outcome := None;
     label_outcome := Rows [label_count_record "Person" 10;
                            [("label", PNone); ("count", PInt 4)];
                            label_count_record "Company" 3;
                            [("count", PInt 5)]] None;
     index_outcome := Rows [idx1] None;
     rel_outcome := Rows [[("relationshipType", PNone); ("startLabel", PStr "A");
                           ("endLabel", PStr "B"); ("count", PInt 2)];
                          [("relationshipType", PStr "KNOWS"); ("startLabel", PStr "A");
                           ("endLabel", PStr "B"); ("count", PInt 1)]] None |}.

(** The example graph when [session.run] raises for the label count
    query, when it raises for the relationship count query, and when the
    label count stream breaks after its first record. *)
Definition label_run_fails_world : world :=
  with_label_outcome (healthy_world example_graph [idx1])
    (RunFails (DriverError "label query failed")).

Definition rel_run_fails_world : world :=
  with_rel_outcome (healthy_world example_graph [idx1])
    (RunFails (DriverError "relationship query failed")).

Definition label_stream_breaks_world : world :=
  with_label_outcome (healthy_world example_graph [idx1])
    (Rows [label_count_record "Company" 1] (Some (DriverError "connection lost"))).

(** A database where every guarded failure happens: both record streams
    break and the catalog listing is refused. *)
Definition degraded_world : world :=
  {| environ := example_env;
     driver_outcome := None;
     label_outcome := Rows [label_count_record "Company" 1]
                           (Some (DriverError "connection lost"));
     index_outcome := RunFails (DriverError "catalog unavailable");
     rel_outcome := Rows [] (Some (DriverError "timeout")) |}.

Definition some_stats : Neo4jStats := {| driver := (None, None, None) |}.

(** ** Well-typed catalog entries

    [SHOW INDEXES] lists, for every index, [labelsOrTypes] (a list of
    strings, or null for a token lookup index) and [properties] (a list of
    strings, or null).  The program reads both without checking them. *)

(** The labels and relationship types an index covers. *)
Definition index_labels (idx : gmap string pyval) : list pyval :=
  match idx !! "labelsOrTypes" with
  | Some (PList l) => l
  | _ => []
  end.

(** The properties an index covers, when they are a list of strings (or
    the field is absent). *)
Definition index_properties (idx : gmap string pyval) : option (list string) :=
  match idx !! "properties" with
  | None => Some []
  | Some (PList l) => all_strings l
  | Some _ => None
  end.

(** [labelsOrTypes] is absent, null or a list, and an index that covers
    some label or type has a list of strings as [properties]. *)
Definition typed_index (idx : gmap string pyval) : bool :=
  match idx !! "labelsOrTypes" with
  | None | Some PNone | Some (PList []) => true
  | Some (PList (_ :: _)) => match index_properties idx with Some _ => true | None => false end
  | Some _ => false
  end.

(** The value of [index_info] after the catalog has been fetched. *)
Definition fetched_index_info (w : world) : list (gmap string pyval) :=
  match index_outcome w with
  | Rows data None => data
  | _ => []
  end.

(** The value of [node_stats] after the first loop, when [session.run]
    returned. *)
Definition collected_node_stats (w : world) : list node_stat :=
  match label_outcome w with
  | Rows rs broken => fst (iterate node_stats_step rs broken [])
  | RunFails _ => []
  end.

(** An index matches a label when its [labelsOrTypes] contains the label. *)
Definition covers (label : pyval) (idx : gmap string pyval) : bool :=
  existsb (py_eqb label) (index_labels idx).

(** The row of a label and one of its indexes, for a well-typed entry. *)
Definition typed_row (node : node_stat) (idx : gmap string pyval) : node_row :=
  {| Node_Label := Label node;
     Node_Count := Count node;
     Index_Name := dict_get idx "name" (PStr "N/A");
     Index_Type := dict_get idx "type" (PStr "N/A");
     Indexed_Property :=
       join_strings ", " (default [] (index_properties idx)) |}.

(** The rows of one label count over a well-typed catalog: one per
    matching index in catalog order, or the single row without index. *)
Definition rows_for (index_info : list (gmap string pyval)) (node : node_stat)
  : list node_row :=
  match List.filter (covers (Label node)) index_info with
  | [] => [no_index_row node]
  | idxs => map (typed_row node) idxs
  end.

(** What [get_db_choice] prints before its loop, and in [n] rounds of the
    loop that end with the message for an invalid choice. *)
Definition banner : list event :=
  [EvPrint (nl +:+ "Available databases:");
   EvPrint "1. Local Database";
   EvPrint "2. Remote Database"].

Definition choice_prompt : event := EvPrompt (nl +:+ "Select database (1 or 2): ").

Fixpoint rounds (n : nat) : list event :=
  match n with
  | O => []
  | S n' => choice_prompt :: EvPrint "Invalid choice. Please select 1 or 2." :: rounds n'
  end.

(** A line that the loop of [get_db_choice] rejects. *)
Definition invalid_choice (line : string) : Prop :=
  strip line <> "1" /\ strip line <> "2".

(** The label count [get_node_stats] makes of a record it keeps. *)
Definition node_of_record (r : record) : node_stat :=
  {| Label := record_get r "label"; Count := record_get r "count" |}.

(** [a.count >= b.count] on two rows of the relationship table. *)
Definition row_count_ge (a b : rel_row) : Prop :=
  match Rel_Count a, Rel_Count b with
  | PInt x, PInt y => (y <= x)%Z
  | _, _ => False
  end.

(** Counting the events of a kind in a trace. *)
Definition is_open (e : event) : bool :=
  match e with EvDriverOpen _ _ _ => true | _ => false end.

Definition is_close (e : event) : bool :=
  match e with EvDriverClose => true | _ => false end.

Definition is_run (q : query) (e : event) : bool :=
  match e, q with
  | EvRun LabelCountQuery, LabelCountQuery => true
  | EvRun IndexCatalogQuery, IndexCatalogQuery => true
  | EvRun RelationshipCountQuery, RelationshipCountQuery => true
  | _, _ => false
  end.

Definition count_events (p : event -> bool) (tr : list event) : nat :=
  length (List.filter p tr).

(** The warning a guard prints for the exception it caught, if any. *)
Definition warning (pre : string) (caught : option exn) : list event :=
  match caught with
  | Some e => [EvPrintExn pre e]
  | None => []
  end.

(** The exception of the catalog listing, raised by [session.run] or by
    [result.data()]. *)
Definition index_failure (w : world) : option exn :=
  match index_outcome w with
  | RunFails e => Some e
  | Rows _ broken => broken
  end.

(** An event that is neither the opening nor the closing of a driver. *)
Definition session_event (e : event) : Prop :=
  is_open e = false /\ is_close e = false.

(** A computation that leaves the variable [stats] alone and neither opens
    nor closes a driver. *)
Definition quiet {A} (m : M A) : Prop :=
  forall s, exists evs,
    trace (snd (m s)) = trace s ++ evs
    /\ stats_var (snd (m s)) = stats_var s
    /\ Forall session_event evs.

(** What [main] does with the object [stats] once it is assigned. *)
Definition report (w : world) (tabulate_nodes : list node_row -> result string)
    (tabulate_rels : list rel_row -> result string) (stats : Neo4jStats) : M unit :=
  node_stats <- get_node_stats w stats ;;
  print (nl +:+ "Node Statistics:") ;;
  table <- lift (tabulate_nodes node_stats) ;;
  emit (EvTable table) ;;
  rel_stats <- get_relationship_stats w stats ;;
  print (nl +:+ "Relationship Statistics:") ;;
  table <- lift (tabulate_rels rel_stats) ;;
  emit (EvTable table).

(** The example database when no record of the label count query has a
    label. *)
Definition unlabelled_world : world :=
  with_label_outcome example_world
    (Rows [[("label", PNone); ("count", PInt 4)]; [("count", PInt 5)]; []] None).

(** A catalog whose index on Person has null properties, and a label count
    query whose second record has a label and no count. *)
Definition null_properties_index : gmap string pyval :=
  list_to_map [("name", PStr "broken");
               ("labelsOrTypes", PList [PStr "Person"]);
               ("properties", PNone)].

Definition null_properties_world : world :=
  {| environ := example_env;
     driver_outcome := None;
     label_outcome := Rows [label_count_record "Company" 3;
                            label_count_record "Person" 10] None;
     index_outcome := Rows [idx1; null_properties_index] None;
     rel_outcome := Rows [] None |}.

Definition missing_count_world : world :=
  with_label_outcome example_world
    (Rows [label_count_record "Company" 3;
           [("label", PStr "Movie")];
           label_count_record "Person" 10] None).

(** The row [get_relationship_stats] makes of a record it keeps. *)
Definition rel_row_of_record (r : record) : rel_row :=
  {| Relationship := record_get r "relationshipType";
     Start_Node := record_get r "startLabel";
     End_Node := record_get r "endLabel";
     Rel_Count := record_get r "count" |}.

(** A relationship count query that yields a record without type, a
    record without end label between two complete records, and then
    breaks. *)
Definition ragged_rel_world : world :=
  with_rel_outcome example_world
    (Rows [[("relationshipType", PStr "KNOWS"); ("startLabel", PStr "A");
            ("endLabel", PStr "B"); ("count", PInt 2)];
           [("startLabel", PStr "A"); ("endLabel", PStr "B"); ("count", PInt 9)];
           [("relationshipType", PStr "OWNS"); ("startLabel", PStr "A");
            ("count", PInt 1)];
           [("relationshipType", PStr "LIKES"); ("startLabel", PStr "A");
            ("endLabel", PStr "B"); ("count", PInt 1)]]
          (Some (DriverError "connection lost"))).

(** A database whose driver cannot be constructed, and renderers that
    raise. *)
Definition no_driver_world : world :=
  {| environ := example_env;
     driver_outcome := Some (DriverError "invalid URI");
     label_outcome := Rows (label_count_query example_graph) None;
     index_outcome := Rows [idx1] None;
     rel_outcome := Rows (relationship_count_query example_graph) None |}.

Definition broken_table {A} (rows : list A) : result string :=
  Raise (TabulateError "cannot render").

(** What [get_node_stats] adds to the trace once [session.run] has
    returned for the label count query, and what [get_relationship_stats]
    adds once it has returned for the relationship count query. *)
Definition node_stats_events (w : world) (rs : list record) (broken : option exn)
  : list event :=
  [EvSessionOpen; EvRun LabelCountQuery]
  ++ warning "Warning: Error processing node labels: "
       (snd (iterate node_stats_step rs broken []))
  ++ [EvRun IndexCatalogQuery]
  ++ warning "Warning: Could not fetch index information: " (index_failure w)
  ++ [EvSessionClose].

Definition rel_stats_events (rs : list record) (broken : option exn) : list event :=
  [EvSessionOpen; EvRun RelationshipCountQuery]
  ++ warning "Warning: Error processing relationships: "
       (snd (iterate rel_stats_step rs broken []))
  ++ [EvSessionClose].

(** The example graph with its edges in another order. *)
Definition shuffled_graph : graph :=
  {| nodes := nodes example_graph; edges := reverse (edges example_graph) |}.

(** The queries a trace sends, in order. *)
Definition run_of (e : event) : option query :=
  match e with EvRun q => Some q | _ => None end.

Definition queries_sent (tr : list event) : list query := omap run_of tr.

Definition is_session_open (e : event) : bool :=
  match e with EvSessionOpen => true | _ => false end.

Definition is_session_close (e : event) : bool :=
  match e with EvSessionClose => true | _ => false end.

(** The number of rows one label count contributes over a catalog. *)
Definition fan_out (index_info : list (gmap string pyval)) (node : node_stat) : nat :=
  Nat.max 1 (length (List.filter (covers (Label node)) index_info)).

(** An event that is neither the opening nor the closing of a session. *)
Definition inner_event (e : event) : Prop :=
  is_session_open e = false /\ is_session_close e = false.

(** * Properties *)

(** ** Python values *)

Lemma py_eqb_eq : forall a b, py_eqb a b = true <-> a = b.
Proof.
  fix IH 1. intros [| x | s | l] [| y | t | m]; simpl;
    try (split; [discriminate | discriminate]); try tauto.
  - rewrite Z.eqb_eq. split; congruence.
  - rewrite String.eqb_eq. split; congruence.
  - revert m. induction l as [| x l IHl]; intros [| y m];
      try (split; [discriminate | discriminate]); try tauto.
    rewrite andb_true_iff, IH, IHl. split.
    + intros [-> E]. congruence.
    + intros E. injection E as -> ->. tauto.
Qed.

Lemma py_eqb_refl a : py_eqb a a = true.
Proof. by apply py_eqb_eq. Qed.

Lemma existsb_py_eqb x l : existsb (py_eqb x) l = true <-> x ∈ l.
Proof.
  rewrite existsb_exists. split.
  - intros (y & Hy & E). apply py_eqb_eq in E as ->. by apply list_elem_of_In.
  - intros H. exists x. split; [by apply list_elem_of_In | apply py_eqb_refl].
Qed.

Example strip_ex : strip "  1 " = "1" /\ strip "1 2" = "1 2" /\ strip "" = "".
Proof. repeat split; reflexivity. Qed.

Example join_ex :
  py_join ", " (PList [PStr "a"; PStr "b"]) = Ok "a, b"
  /\ py_join ", " (PList []) = Ok ""
  /\ py_join ", " (PStr "ab") = Ok "a, b"
  /\ py_join ", " PNone = Raise TypeError.
Proof. repeat split; reflexivity. Qed.

(** ** The node and index aggregation *)

Lemma covers_elem_of label idx : covers label idx = true <-> label ∈ index_labels idx.
Proof. apply existsb_py_eqb. Qed.

Lemma label_indexes_typed label index_info :
  Forall (fun idx => typed_index idx = true) index_info ->
  label_indexes label index_info = Ok (List.filter (covers label) index_info).
Proof.
  induction 1 as [| idx rest Hidx _ IH]; [reflexivity |].
  simpl. rewrite IH. unfold covers, index_labels, typed_index, dict_get in *.
  destruct (idx !! "labelsOrTypes") as [[| z | t | [| x l]] |]; try discriminate;
    simpl; reflexivity.
Qed.

Lemma index_row_typed node idx :
  typed_index idx = true -> covers (Label node) idx = true ->
  index_row node idx = Ok (typed_row node idx).
Proof.
  unfold typed_index, covers, index_labels, index_row, typed_row, index_properties, dict_get.
  destruct (idx !! "labelsOrTypes") as [[| z | t | [| x l]] |]; try discriminate.
  intros Ht _. destruct (idx !! "properties") as [[| z | t | ps] |]; try discriminate;
    simpl; [| reflexivity].
  by destruct (all_strings ps).
Qed.

Lemma append_index_rows_acc node idxs acc :
  append_index_rows node idxs acc
  = rbind (append_index_rows node idxs []) (fun rows => Ok (acc ++ rows)).
Proof.
  revert acc. induction idxs as [| idx rest IH]; intros acc; simpl.
  - by rewrite app_nil_r.
  - destruct (index_row node idx) as [row | e]; simpl; [| reflexivity].
    rewrite (IH (acc ++ [row])), (IH [row]).
    destruct (append_index_rows node rest []) as [rows | e]; simpl; [| reflexivity].
    by rewrite <- app_assoc.
Qed.

Lemma append_index_rows_typed node idxs :
  Forall (fun idx => typed_index idx = true /\ covers (Label node) idx = true) idxs ->
  append_index_rows node idxs [] = Ok (map (typed_row node) idxs).
Proof.
  induction 1 as [| idx rest [Ht Hc] _ IH]; [reflexivity |].
  simpl. rewrite (index_row_typed _ _ Ht Hc). simpl.
  rewrite append_index_rows_acc, IH. reflexivity.
Qed.

Lemma combine_step_acc index_info node acc :
  combine_step index_info node acc
  = rbind (combine_step index_info node []) (fun rows => Ok (acc ++ rows)).
Proof.
  unfold combine_step.
  destruct (label_indexes (Label node) index_info) as [[| idx idxs] | e];
    [reflexivity | apply (append_index_rows_acc node (idx :: idxs)) | reflexivity].
Qed.

Lemma combine_acc index_info node_stats acc :
  combine index_info node_stats acc
  = rbind (combine index_info node_stats []) (fun rows => Ok (acc ++ rows)).
Proof.
  revert acc. induction node_stats as [| node rest IH]; intros acc; simpl.
  - by rewrite app_nil_r.
  - rewrite (combine_step_acc index_info node acc).
    destruct (combine_step index_info node []) as [rows | e]; simpl; [| reflexivity].
    rewrite (IH (acc ++ rows)), (IH rows).
    destruct (combine index_info rest []) as [rows' | e]; simpl; [| reflexivity].
    by rewrite <- app_assoc.
Qed.

(** The output of the loop over [pre ++ node :: post] is the output for
    [pre], then the rows of [node], then the output for [post]. *)
Lemma combine_split index_info pre node post :
  combine index_info (pre ++ node :: post) []
  = rbind (combine index_info pre []) (fun r1 =>
    rbind (combine_step index_info node []) (fun r =>
    rbind (combine index_info post []) (fun r2 =>
    Ok (r1 ++ r ++ r2)))).
Proof.
  induction pre as [| n pre IH]; simpl.
  - destruct (combine_step index_info node []) as [r | e]; simpl; [| reflexivity].
    rewrite combine_acc. reflexivity.
  - destruct (combine_step index_info n []) as [r0 | e]; simpl; [| reflexivity].
    rewrite combine_acc, IH, (combine_acc index_info pre r0).
    destruct (combine index_info pre []) as [r1 | e]; simpl; [| reflexivity].
    destruct (combine_step index_info node []) as [r | e]; simpl; [| reflexivity].
    destruct (combine index_info post []) as [r2 | e]; simpl; [| reflexivity].
    by rewrite <- app_assoc.
Qed.

Lemma filter_covers_Forall label index_info :
  Forall (fun idx => typed_index idx = true) index_info ->
  Forall (fun idx => typed_index idx = true /\ covers label idx = true)
         (List.filter (covers label) index_info).
Proof.
  intros H. apply List.Forall_forall. intros idx Hin.
  apply filter_In in Hin as [Hin Hc]. split; [| done].
  by apply (proj1 (List.Forall_forall _ _) H).
Qed.

Lemma combine_step_typed index_info node :
  Forall (fun idx => typed_index idx = true) index_info ->
  combine_step index_info node [] = Ok (rows_for index_info node).
Proof.
  intros H. unfold combine_step, rows_for.
  rewrite (label_indexes_typed _ _ H). simpl.
  pose proof (filter_covers_Forall (Label node) _ H) as HF.
  destruct (List.filter (covers (Label node)) index_info) as [| idx idxs]; [reflexivity |].
  by apply append_index_rows_typed.
Qed.

(** Over a well-typed catalog the loop never raises, and its output is the
    concatenation of the rows of every label count, in order. *)
Lemma combine_typed index_info node_stats :
  Forall (fun idx => typed_index idx = true) index_info ->
  combine index_info node_stats [] = Ok (flat_map (rows_for index_info) node_stats).
Proof.
  intros H. induction node_stats as [| node rest IH]; [reflexivity |].
  simpl. rewrite (combine_step_typed _ _ H). simpl.
  rewrite combine_acc, IH. reflexivity.
Qed.

Lemma list_or_empty_id {A} (l : list A) : list_or_empty l = l.
Proof. by destruct l. Qed.

(** What [get_node_stats] returns once [session.run] has returned for the
    label count query. *)
Lemma get_node_stats_result w self s rs broken :
  label_outcome w = Rows rs broken ->
  fst (get_node_stats w self s)
  = combine (fetched_index_info w) (collected_node_stats w) [].
Proof.
  intros Hl. unfold get_node_stats, collected_node_stats, fetched_index_info,
    with_session, session_run, result_data, try_finally, try_except, bind, emit,
    warn, lift, ret, raise.
  rewrite Hl. simpl.
  destruct (iterate node_stats_step rs broken []) as [node_stats [e |]]; simpl;
    (destruct (index_outcome w) as [e' | data [e' |]]; simpl;
     [ | | rewrite list_or_empty_id ];
     match goal with
     | |- context [combine ?i ?n []] =>
         destruct (combine i n []) as [rows | e'']; simpl;
         rewrite ?list_or_empty_id; reflexivity
     end).
Qed.

Lemma filter_covers_nil label index_info :
  Forall (fun idx => label ∉ index_labels idx) index_info ->
  List.filter (covers label) index_info = [].
Proof.
  induction 1 as [| idx rest Hidx _ IH]; [reflexivity |].
  simpl. destruct (covers label idx) eqn:E; [| exact IH].
  by apply covers_elem_of in E.
Qed.

Lemma rows_for_carry index_info node :
  rows_for index_info node <> []
  /\ Forall (fun row => Node_Label row = Label node /\ Node_Count row = Count node)
            (rows_for index_info node).
Proof.
  unfold rows_for.
  destruct (List.filter (covers (Label node)) index_info) as [| idx idxs].
  - split; [discriminate | by repeat constructor].
  - split; [discriminate |]. apply List.Forall_forall. intros row Hin.
    apply in_map_iff in Hin as (i & <- & _). by split.
Qed.

Lemma flat_map_rows_for_length index_info node_stats :
  length node_stats <= length (flat_map (rows_for index_info) node_stats).
Proof.
  induction node_stats as [| node rest IH]; simpl; [lia |].
  rewrite length_app. destruct (rows_for_carry index_info node) as [Hne _].
  destruct (rows_for index_info node); [done | simpl; lia].
Qed.

(** C1: a label count [node] without a matching index yields exactly one
    row, which carries its label and count and the values "No Index", "N/A"
    and "N/A": the output of [get_node_stats] is the output for the label
    counts before it, this row, and the output for the label counts after
    it.  And every label count yields at least one row of the output. *)
Theorem C1_unindexed_label_single_row w self s rs broken :
  label_outcome w = Rows rs broken ->
  Forall (fun idx => typed_index idx = true) (fetched_index_info w) ->
  (forall pre node post,
      collected_node_stats w = pre ++ node :: post ->
      Forall (fun idx => Label node ∉ index_labels idx) (fetched_index_info w) ->
      exists r1 r2,
        fst (get_node_stats w self s)
        = Ok (r1 ++ [{| Node_Label := Label node;
                        Node_Count := Count node;
                        Index_Name := PStr "No Index";
                        Index_Type := PStr "N/A";
                        Indexed_Property := "N/A" |}] ++ r2)
        /\ combine (fetched_index_info w) pre [] = Ok r1
        /\ combine (fetched_index_info w) post [] = Ok r2)
  /\ (exists rows,
        fst (get_node_stats w self s) = Ok rows
        /\ length (collected_node_stats w) <= length rows
        /\ forall node, node ∈ collected_node_stats w ->
             exists row, row ∈ rows /\ Node_Label row = Label node
                         /\ Node_Count row = Count node).
Proof.
  intros Hl Ht. rewrite (get_node_stats_result _ _ _ _ _ Hl). split.
  - intros pre node post Hc Hno. rewrite Hc, combine_split.
    rewrite !(combine_typed _ _ Ht), (combine_step_typed _ _ Ht). simpl.
    unfold rows_for. rewrite (filter_covers_nil _ _ Hno).
    eexists _, _. split; [reflexivity | by split].
  - rewrite (combine_typed _ _ Ht). eexists. split; [reflexivity |].
    split; [apply flat_map_rows_for_length |].
    intros node Hin. destruct (rows_for_carry (fetched_index_info w) node) as [Hne Hall].
    destruct (rows_for (fetched_index_info w) node) as [| row rows] eqn:E; [done |].
    exists row. apply Forall_cons in Hall as [[Hlab Hcnt] _].
    split; [| by split]. apply list_elem_of_In, in_flat_map.
    exists node. split; [by apply list_elem_of_In | rewrite E; by left].
Qed.

Lemma C1_witness :
  fst (get_node_stats example_world some_stats (init_state []))
  = Ok ([{| Node_Label := PStr "Person"; Node_Count := PInt 10;
            Index_Name := PStr "idx1"; Index_Type := PStr "N/A";
            Indexed_Property := "email" |}]
        ++ [{| Node_Label := PStr "Company"; Node_Count := PInt 3;
               Index_Name := PStr "No Index"; Index_Type := PStr "N/A";
               Indexed_Property := "N/A" |}] ++ []).
Proof.
  destruct (C1_unindexed_label_single_row example_world some_stats (init_state [])
              [label_count_record "Person" 10; label_count_record "Company" 3] None
              eq_refl) as [H _].
  - repeat constructor.
  - destruct (H [{| Label := PStr "Person"; Count := PInt 10 |}]
                {| Label := PStr "Company"; Count := PInt 3 |} [] eq_refl)
      as (r1 & r2 & Hres & H1 & H2).
    + repeat constructor. vm_compute. intros Hin.
      apply list_elem_of_In in Hin. destruct Hin as [E | []]. discriminate E.
    + vm_compute in H1, H2. injection H1 as <-. injection H2 as <-. exact Hres.
Defined.

Lemma covering_properties idx label :
  typed_index idx = true -> covers label idx = true ->
  exists props, index_properties idx = Some props.
Proof.
  unfold typed_index, covers, index_labels.
  destruct (idx !! "labelsOrTypes") as [[| z | t | [| x l]] |]; try discriminate.
  destruct (index_properties idx) as [props |]; [eauto | discriminate].
Qed.

Lemma map_typed_row_zip node idxs :
  map (typed_row node) idxs
  = zip_with (fun idx ps =>
                {| Node_Label := Label node;
                   Node_Count := Count node;
                   Index_Name := dict_get idx "name" (PStr "N/A");
                   Index_Type := dict_get idx "type" (PStr "N/A");
                   Indexed_Property := join_strings ", " ps |})
             idxs (map (fun idx => default [] (index_properties idx)) idxs).
Proof. induction idxs as [| idx l IH]; [reflexivity |]. simpl. by rewrite IH. Qed.

(** C2: a label count with label [L] and count [C] whose matching
    indexes, in catalog order, are [idxs] (at least one) yields exactly one
    row per index of [idxs], in that order: the output of [get_node_stats]
    is the output for the label counts before it, these rows, and the
    output for the label counts after it.  Every such row carries [L] and
    [C]; its other fields are the name and type of the index and the
    properties of the index joined with ", " in their order.  [C] is any
    value, zero included, and only copied. *)
Theorem C2_indexed_label_fan_out w self s rs broken pre post L C idxs :
  label_outcome w = Rows rs broken ->
  Forall (fun idx => typed_index idx = true) (fetched_index_info w) ->
  collected_node_stats w = pre ++ {| Label := L; Count := C |} :: post ->
  List.filter (covers L) (fetched_index_info w) = idxs ->
  1 <= length idxs ->
  exists (r1 r2 : list node_row) (props : list (list string)),
    fst (get_node_stats w self s)
    = Ok (r1 ++ zip_with (fun idx ps =>
                    {| Node_Label := L;
                       Node_Count := C;
                       Index_Name := dict_get idx "name" (PStr "N/A");
                       Index_Type := dict_get idx "type" (PStr "N/A");
                       Indexed_Property := join_strings ", " ps |}) idxs props
             ++ r2)
    /\ Forall2 (fun idx ps => index_properties idx = Some ps) idxs props
    /\ combine (fetched_index_info w) pre [] = Ok r1
    /\ combine (fetched_index_info w) post [] = Ok r2.
Proof.
  intros Hl Ht Hc Hf Hn. rewrite (get_node_stats_result _ _ _ _ _ Hl), Hc, combine_split.
  rewrite !(combine_typed _ _ Ht), (combine_step_typed _ _ Ht). simpl.
  unfold rows_for. simpl. rewrite Hf.
  pose proof (filter_covers_Forall L _ Ht) as HF. rewrite Hf in HF.
  exists (flat_map (rows_for (fetched_index_info w)) pre),
         (flat_map (rows_for (fetched_index_info w)) post),
         (map (fun idx => default [] (index_properties idx)) idxs).
  split; [| split; [| by split]].
  - destruct idxs as [| idx idxs']; [simpl in Hn; lia |].
    fold (rows_for (fetched_index_info w)).
    change (typed_row ?n idx :: map (typed_row ?n) idxs')
      with (map (typed_row n) (idx :: idxs')).
    by rewrite map_typed_row_zip.
  - clear Hf Hn. induction HF as [| idx l [Hty Hcov] _ IH]; [constructor |].
    simpl. constructor; [| exact IH].
    destruct (covering_properties _ _ Hty Hcov) as [ps ->]. reflexivity.
Qed.

Lemma C2_witness :
  fst (get_node_stats zero_count_world some_stats (init_state []))
  = Ok [{| Node_Label := PStr "Movie"; Node_Count := PInt 7;
           Index_Name := PStr "No Index"; Index_Type := PStr "N/A";
           Indexed_Property := "N/A" |};
        {| Node_Label := PStr "Person"; Node_Count := PInt 0;
           Index_Name := PStr "idx1"; Index_Type := PStr "N/A";
           Indexed_Property := "email" |};
        {| Node_Label := PStr "Person"; Node_Count := PInt 0;
           Index_Name := PStr "idx2"; Index_Type := PStr "RANGE";
           Indexed_Property := "name, born" |}].
Proof.
  destruct (C2_indexed_label_fan_out zero_count_world some_stats (init_state [])
              [label_count_record "Movie" 7; label_count_record "Person" 0] None
              [{| Label := PStr "Movie"; Count := PInt 7 |}] []
              (PStr "Person") (PInt 0) [idx1; idx2] eq_refl)
    as (r1 & r2 & props & Hres & Hprops & H1 & H2).
  - repeat constructor.
  - reflexivity.
  - reflexivity.
  - simpl. lia.
  - vm_compute in H1, H2. injection H1 as <-. injection H2 as <-.
    inversion Hprops as [| i1 p1 l1 l1' E1 Hrest]; subst.
    inversion Hrest as [| i2 p2 l2 l2' E2 Hnil]; subst.
    inversion Hnil; subst.
    vm_compute in E1, E2. injection E1 as <-. injection E2 as <-. exact Hres.
Defined.

Lemma combine_empty_catalog node_stats :
  combine [] node_stats [] = Ok (map no_index_row node_stats).
Proof.
  rewrite combine_typed by constructor. f_equal.
Qed.

(** C3: when the statement of the index catalog fails, in [session.run]
    or while [result.data()] reads the catalog [data], [get_node_stats]
    prints the warning, goes on with an empty catalog and returns: one row
    per label count, each with the values "No Index", "N/A" and "N/A",
    whatever [data] holds.  The statement is only sent after [session.run]
    has returned for the label count query. *)
Theorem C3_catalog_failure_degrades w self s rs broken e :
  label_outcome w = Rows rs broken ->
  (index_outcome w = RunFails e
   \/ exists data, index_outcome w = Rows data (Some e)) ->
  exists rows,
    fst (get_node_stats w self s) = Ok rows
    /\ rows = map (fun node =>
                    {| Node_Label := Label node;
                       Node_Count := Count node;
                       Index_Name := PStr "No Index";
                       Index_Type := PStr "N/A";
                       Indexed_Property := "N/A" |}) (collected_node_stats w)
    /\ EvPrintExn "Warning: Could not fetch index information: " e
       ∈ trace (snd (get_node_stats w self s)).
Proof.
  intros Hl Hi. eexists. split; [| split; [reflexivity |]].
  - rewrite (get_node_stats_result _ _ _ _ _ Hl).
    replace (fetched_index_info w) with (@nil (gmap string pyval)).
    + apply combine_empty_catalog.
    + unfold fetched_index_info. by destruct Hi as [-> | [data ->]].
  - unfold get_node_stats, with_session, session_run, result_data, try_finally,
      try_except, bind, emit, warn, lift, ret, raise.
    rewrite Hl. simpl.
    destruct (iterate node_stats_step rs broken []) as [node_stats [e0 |]]; simpl;
      (destruct Hi as [-> | [data ->]]; simpl;
       rewrite combine_empty_catalog; simpl; rewrite ?list_or_empty_id; simpl;
       rewrite !elem_of_app, !list_elem_of_singleton; tauto).
Qed.

Lemma C3_witness :
  exists rows,
    fst (get_node_stats no_catalog_world some_stats (init_state [])) = Ok rows
    /\ rows = [{| Node_Label := PStr "Person"; Node_Count := PInt 10;
                  Index_Name := PStr "No Index"; Index_Type := PStr "N/A";
                  Indexed_Property := "N/A" |};
               {| Node_Label := PStr "Company"; Node_Count := PInt 3;
                  Index_Name := PStr "No Index"; Index_Type := PStr "N/A";
                  Indexed_Property := "N/A" |}]
    /\ EvPrintExn "Warning: Could not fetch index information: "
                  (DriverError "catalog unavailable")
       ∈ trace (snd (get_node_stats no_catalog_world some_stats (init_state []))).
Proof.
  exact (C3_catalog_failure_degrades no_catalog_world some_stats (init_state [])
           [label_count_record "Person" 10; label_count_record "Company" 3] None
           (DriverError "catalog unavailable") eq_refl (or_introl eq_refl)).
Defined.

(** C6 (amended): on the label counts Person 10 and Company 3 and the
    single index idx1 on Person with the property email and without a type,
    the aggregation yields two rows, Person 10 idx1 "N/A" email and
    Company 3 "No Index" "N/A" "N/A", in this order: the type of an index
    that has none is rendered as "N/A". *)
Theorem C6_worked_example self s :
  combine [idx1] example_label_counts []
  = Ok [{| Node_Label := PStr "Person"; Node_Count := PInt 10;
           Index_Name := PStr "idx1"; Index_Type := PStr "N/A";
           Indexed_Property := "email" |};
        {| Node_Label := PStr "Company"; Node_Count := PInt 3;
           Index_Name := PStr "No Index"; Index_Type := PStr "N/A";
           Indexed_Property := "N/A" |}]
  /\ fst (get_node_stats example_world self s)
     = combine [idx1] example_label_counts [].
Proof.
  split; [reflexivity |].
  by rewrite (get_node_stats_result example_world self s _ _ eq_refl).
Qed.

(** C6 as stated fails: the first row does not have the empty string as
    its index type. *)
Lemma C6_counterexample :
  combine [idx1] example_label_counts []
  <> Ok [{| Node_Label := PStr "Person"; Node_Count := PInt 10;
            Index_Name := PStr "idx1"; Index_Type := PStr "";
            Indexed_Property := "email" |};
         {| Node_Label := PStr "Company"; Node_Count := PInt 3;
            Index_Name := PStr "No Index"; Index_Type := PStr "N/A";
            Indexed_Property := "N/A" |}].
Proof. vm_compute. discriminate. Qed.

(** ** Records without a label or a relationship type *)

Lemma iterate_invariant {A S} (body : A -> S -> result S) (Inv : S -> Prop) :
  (forall r acc acc', body r acc = Ok acc' -> Inv acc -> Inv acc') ->
  forall rs broken acc, Inv acc -> Inv (fst (iterate body rs broken acc)).
Proof.
  intros Hstep rs broken. induction rs as [| r rs IH]; intros acc Hacc; simpl; [done |].
  destruct (body r acc) as [acc' | e] eqn:E; simpl; [| done].
  apply IH. by apply (Hstep r acc).
Qed.

Lemma iterate_skip {A S} (body : A -> S -> result S) r :
  (forall acc, body r acc = Ok acc) ->
  forall pre post broken acc,
    iterate body (pre ++ r :: post) broken acc = iterate body (pre ++ post) broken acc.
Proof.
  intros Hr pre post broken. induction pre as [| x pre IH]; intros acc; simpl.
  - by rewrite Hr.
  - destruct (body x acc); [apply IH | reflexivity].
Qed.

Lemma node_stats_step_label record acc acc' :
  node_stats_step record acc = Ok acc' ->
  Forall (fun node => Label node <> PNone) acc ->
  Forall (fun node => Label node <> PNone) acc'.
Proof.
  unfold node_stats_step, record_get, record_item.
  destruct (record_truthy record); simpl; [| by intros [= <-]].
  destruct (field record "label") as [[| z | t | l] |]; simpl; try (by intros [= <-]);
    (destruct (field record "count") as [c |]; simpl; [| discriminate];
     intros [= <-] H; apply Forall_app; split; [done | by repeat constructor]).
Qed.

Lemma rel_stats_step_type record acc acc' :
  rel_stats_step record acc = Ok acc' ->
  Forall (fun row => Relationship row <> PNone) acc ->
  Forall (fun row => Relationship row <> PNone) acc'.
Proof.
  unfold rel_stats_step, record_get, record_item.
  destruct (record_truthy record); simpl; [| by intros [= <-]].
  destruct (field record "relationshipType") as [[| z | t | l] |]; simpl;
    try (by intros [= <-]);
    (destruct (field record "startLabel") as [a |]; simpl; [| discriminate];
     destruct (field record "endLabel") as [b |]; simpl; [| discriminate];
     destruct (field record "count") as [c |]; simpl; [| discriminate];
     intros [= <-] H; apply Forall_app; split; [done | by repeat constructor]).
Qed.

Lemma node_stats_step_skip record :
  field record "label" = None \/ field record "label" = Some PNone ->
  forall acc, node_stats_step record acc = Ok acc.
Proof.
  intros H acc. unfold node_stats_step, record_get.
  destruct H as [-> | ->]; simpl; by rewrite andb_false_r.
Qed.

Lemma rel_stats_step_skip record :
  field record "relationshipType" = None \/ field record "relationshipType" = Some PNone ->
  forall acc, rel_stats_step record acc = Ok acc.
Proof.
  intros H acc. unfold rel_stats_step, record_get.
  destruct H as [-> | ->]; simpl; by rewrite andb_false_r.
Qed.

Lemma append_index_rows_labels (P : pyval -> Prop) node idxs acc rows :
  append_index_rows node idxs acc = Ok rows ->
  P (Label node) ->
  Forall (fun row => P (Node_Label row)) acc ->
  Forall (fun row => P (Node_Label row)) rows.
Proof.
  revert acc. induction idxs as [| idx rest IH]; intros acc; simpl.
  - by intros [= <-].
  - unfold index_row. destruct (py_join _ _) as [props | e]; simpl; [| discriminate].
    intros H HP Hacc. apply (IH _ H HP). apply Forall_app. split; [done |].
    by repeat constructor.
Qed.

Lemma combine_labels (P : pyval -> Prop) index_info node_stats acc rows :
  combine index_info node_stats acc = Ok rows ->
  Forall (fun node => P (Label node)) node_stats ->
  Forall (fun row => P (Node_Label row)) acc ->
  Forall (fun row => P (Node_Label row)) rows.
Proof.
  revert acc. induction node_stats as [| node rest IH]; intros acc; simpl.
  - by intros [= <-].
  - intros H Hns Hacc. apply Forall_cons in Hns as [Hn Hrest].
    destruct (combine_step index_info node acc) as [acc' | e] eqn:E; simpl in H;
      [| discriminate].
    apply (IH _ H Hrest). unfold combine_step in E.
    destruct (label_indexes (Label node) index_info) as [[| idx idxs] | e];
      [| | discriminate].
    + injection E as <-. apply Forall_app. split; [done | by repeat constructor].
    + by apply (append_index_rows_labels P node (idx :: idxs) acc acc' E).
Qed.

Lemma get_node_stats_run_fails w self s e :
  label_outcome w = RunFails e -> fst (get_node_stats w self s) = Raise e.
Proof.
  intros Hl. unfold get_node_stats, with_session, session_run, try_finally, bind,
    emit, raise. by rewrite Hl.
Qed.

Lemma get_relationship_stats_result w self s rs broken :
  rel_outcome w = Rows rs broken ->
  fst (get_relationship_stats w self s) = Ok (fst (iterate rel_stats_step rs broken [])).
Proof.
  intros Hr. unfold get_relationship_stats, with_session, session_run, try_finally,
    bind, emit, warn, ret, raise. rewrite Hr. simpl.
  destruct (iterate rel_stats_step rs broken []) as [rel_stats [e |]]; simpl;
    by rewrite list_or_empty_id.
Qed.

Lemma get_relationship_stats_run_fails w self s e :
  rel_outcome w = RunFails e -> fst (get_relationship_stats w self s) = Raise e.
Proof.
  intros Hr. unfold get_relationship_stats, with_session, session_run, try_finally,
    bind, emit, raise. by rewrite Hr.
Qed.

(** C9: a record whose label (in [get_node_stats]) or relationship type
    (in [get_relationship_stats]) is absent or null is skipped without a
    trace: the call returns the same rows and leaves the same state as if
    the query had not yielded the record.  Hence no row that either
    function returns has [None] as its label or relationship type. *)
Theorem C9_null_records_skipped w self s :
  (forall pre r post broken,
      label_outcome w = Rows (pre ++ r :: post) broken ->
      field r "label" = None \/ field r "label" = Some PNone ->
      get_node_stats w self s
      = get_node_stats (with_label_outcome w (Rows (pre ++ post) broken)) self s)
  /\ (forall pre r post broken,
        rel_outcome w = Rows (pre ++ r :: post) broken ->
        field r "relationshipType" = None \/ field r "relationshipType" = Some PNone ->
        get_relationship_stats w self s
        = get_relationship_stats (with_rel_outcome w (Rows (pre ++ post) broken)) self s)
  /\ (forall rows,
        fst (get_node_stats w self s) = Ok rows ->
        Forall (fun row => Node_Label row <> PNone) rows)
  /\ (forall rows,
        fst (get_relationship_stats w self s) = Ok rows ->
        Forall (fun row => Relationship row <> PNone) rows).
Proof.
  repeat split.
  - intros pre r post broken Hl Hr.
    unfold get_node_stats, with_label_outcome. simpl. rewrite Hl.
    unfold with_session, session_run, bind, try_finally, emit, ret. simpl.
    by rewrite (iterate_skip node_stats_step r (node_stats_step_skip r Hr)).
  - intros pre r post broken Hl Hr.
    unfold get_relationship_stats, with_rel_outcome. simpl. rewrite Hl.
    unfold with_session, session_run, bind, try_finally, emit, ret. simpl.
    by rewrite (iterate_skip rel_stats_step r (rel_stats_step_skip r Hr)).
  - intros rows H. destruct (label_outcome w) as [e | rs broken] eqn:Hl.
    + by rewrite (get_node_stats_run_fails _ _ _ _ Hl) in H.
    + rewrite (get_node_stats_result _ _ _ _ _ Hl) in H.
      apply (combine_labels (fun l => l <> PNone) _ _ _ _ H); [| constructor].
      unfold collected_node_stats. rewrite Hl.
      apply (iterate_invariant node_stats_step _ node_stats_step_label). constructor.
  - intros rows H. destruct (rel_outcome w) as [e | rs broken] eqn:Hr.
    + by rewrite (get_relationship_stats_run_fails _ _ _ _ Hr) in H.
    + rewrite (get_relationship_stats_result _ _ _ _ _ Hr) in H. injection H as <-.
      apply (iterate_invariant rel_stats_step _ rel_stats_step_type). constructor.
Qed.

Lemma C9_witness :
  get_node_stats null_label_world some_stats (init_state [])
  = get_node_stats
      (with_label_outcome null_label_world
         (Rows ([label_count_record "Person" 10]
                ++ [label_count_record "Company" 3; [("count", PInt 5)]]) None))
      some_stats (init_state [])
  /\ Forall (fun row => Node_Label row <> PNone)
       [{| Node_Label := PStr "Person"; Node_Count := PInt 10;
           Index_Name := PStr "idx1"; Index_Type := PStr "N/A";
           Indexed_Property := "email" |};
        {| Node_Label := PStr "Company"; Node_Count := PInt 3;
           Index_Name := PStr "No Index"; Index_Type := PStr "N/A";
           Indexed_Property := "N/A" |}]
  /\ Forall (fun row => Relationship row <> PNone)
       [{| Relationship := PStr "KNOWS"; Start_Node := PStr "A";
           End_Node := PStr "B"; Rel_Count := PInt 1 |}].
Proof.
  destruct (C9_null_records_skipped null_label_world some_stats (init_state []))
    as (Hskip & _ & Hnode & Hrel).
  split; [| split].
  - apply (Hskip [label_count_record "Person" 10] [("label", PNone); ("count", PInt 4)]
             [label_count_record "Company" 3; [("count", PInt 5)]] None eq_refl).
    right. reflexivity.
  - apply Hnode. reflexivity.
  - apply Hrel. reflexivity.
Defined.

(** ** The relationship aggregation *)

Section Grouping.
Context `{EqDecision K}.
Implicit Types (k : K) (l : list K).

Lemma group_size_pos k l : k ∈ l <-> 1 <= group_size k l.
Proof.
  unfold group_size. split.
  - intros Hin. assert (k ∈ filter (fun k' => k' = k) l) as Hf
      by (by apply list_elem_of_filter).
    destruct (filter (fun k' => k' = k) l); [by apply not_elem_of_nil in Hf | simpl; lia].
  - intros Hlen. destruct (filter (fun k' => k' = k) l) as [| x xs] eqn:E;
      [simpl in Hlen; lia |].
    assert (x ∈ filter (fun k' => k' = k) l) as Hx by (rewrite E; by left).
    apply list_elem_of_filter in Hx as [-> Hx]. exact Hx.
Qed.

Lemma group_count_keys l : map fst (group_count l) = remove_dups l.
Proof. unfold group_count. rewrite map_map. simpl. apply map_id. Qed.

Lemma group_count_elem_of k n l :
  (k, n) ∈ group_count l <-> k ∈ l /\ n = group_size k l.
Proof.
  unfold group_count. rewrite list_elem_of_In, in_map_iff. split.
  - intros (k' & [= -> <-] & Hin). split; [| done].
    by apply elem_of_remove_dups, list_elem_of_In.
  - intros [Hin ->]. exists k. split; [done |].
    by apply list_elem_of_In, elem_of_remove_dups.
Qed.
End Grouping.

Global Instance count_ge_total : Total count_ge.
Proof. intros a b. unfold count_ge. lia. Qed.

Global Instance label_le_total : Total label_le.
Proof. intros a b. unfold label_le. apply (total String.le). Qed.

Lemma iterate_rel_records groups acc :
  iterate rel_stats_step (map rel_record groups) None acc
  = (acc ++ map rel_row_of groups, None).
Proof.
  revert acc. induction groups as [| row groups IH]; intros acc; simpl.
  - by rewrite app_nil_r.
  - change (rel_stats_step (rel_record row) acc) with (Ok (acc ++ [rel_row_of row])).
    simpl. rewrite IH, <- app_assoc. reflexivity.
Qed.

Lemma Sorted_rel_rows groups :
  Sorted count_ge groups -> Sorted row_count_ge (map rel_row_of groups).
Proof.
  induction 1 as [| row groups _ IH Hhd]; simpl; constructor; [done |].
  destruct Hhd as [| row' groups' Hge]; simpl; constructor.
  unfold row_count_ge, count_ge in *. simpl. lia.
Qed.

(** C5: when the relationship count query answers over the graph [g],
    [get_relationship_stats] returns one row per triple of relationship
    type, first start label and first end label that some edge of [g] has:
    the triples of the rows are pairwise distinct, a triple with the count
    [n] is among them exactly when [n] is the number of edges of [g] with
    this triple and is at least one, and every row has a count at least as
    large as the count of the row after it. *)
Theorem C5_relationship_rows_grouped_sorted w self s g :
  rel_outcome w = Rows (relationship_count_query g) None ->
  exists groups : list (string * string * string * nat),
    fst (get_relationship_stats w self s) = Ok (map rel_row_of groups)
    /\ NoDup (map fst groups)
    /\ (forall k n, (k, n) ∈ groups
                    <-> n = group_size k (map edge_key (edges g)) /\ 1 <= n)
    /\ Sorted count_ge groups
    /\ Sorted row_count_ge (map rel_row_of groups).
Proof.
  intros Hr. exists (merge_sort count_ge (group_count (map edge_key (edges g)))).
  pose proof (merge_sort_Permutation count_ge (group_count (map edge_key (edges g)))) as HP.
  pose proof (Sorted_merge_sort count_ge (group_count (map edge_key (edges g)))) as HS.
  split; [| split; [| split; [| split]]].
  - rewrite (get_relationship_stats_result _ _ _ _ _ Hr).
    unfold relationship_count_query. by rewrite iterate_rel_records.
  - rewrite (Permutation_map fst HP), group_count_keys. apply NoDup_remove_dups.
  - intros k n. rewrite HP, group_count_elem_of. split.
    + intros [Hin ->]. split; [done | by apply group_size_pos].
    + intros [-> Hn]. split; [by apply group_size_pos | done].
  - exact HS.
  - by apply Sorted_rel_rows.
Qed.

Lemma C5_witness :
  exists groups : list (string * string * string * nat),
    fst (get_relationship_stats (healthy_world example_graph [idx1]) some_stats (init_state []))
    = Ok (map rel_row_of groups)
    /\ NoDup (map fst groups)
    /\ (forall k n, (k, n) ∈ groups
                    <-> n = group_size k (map edge_key (edges example_graph)) /\ 1 <= n)
    /\ Sorted count_ge groups
    /\ Sorted row_count_ge (map rel_row_of groups).
Proof.
  exact (C5_relationship_rows_grouped_sorted (healthy_world example_graph [idx1])
           some_stats (init_state []) example_graph eq_refl).
Defined.

Example relationship_rows_example :
  fst (get_relationship_stats (healthy_world example_graph [idx1]) some_stats (init_state []))
  = Ok [{| Relationship := PStr "KNOWS"; Start_Node := PStr "Person";
           End_Node := PStr "Person"; Rel_Count := PInt 2 |};
        {| Relationship := PStr "OWNS"; Start_Node := PStr "(no label)";
           End_Node := PStr "Company"; Rel_Count := PInt 1 |};
        {| Relationship := PStr "WORKS_AT"; Start_Node := PStr "Person";
           End_Node := PStr "Company"; Rel_Count := PInt 1 |}].
Proof. vm_compute. reflexivity. Qed.

(** ** Order of the node table *)

Lemma node_stats_step_cases r acc :
  node_stats_step r acc = Ok acc
  \/ node_stats_step r acc = Ok (acc ++ [node_of_record r])
  \/ exists e, node_stats_step r acc = Raise e.
Proof.
  unfold node_stats_step, node_of_record, record_get, record_item.
  destruct (record_truthy r); simpl; [| by left].
  destruct (field r "label") as [[| z | t | l] |]; simpl; try (by left);
    (destruct (field r "count") as [c |]; simpl; [right; by left | right; right; eauto]).
Qed.

Lemma iterate_node_stats_sublist rs broken acc :
  exists kept,
    kept `sublist_of` rs
    /\ fst (iterate node_stats_step rs broken acc) = acc ++ map node_of_record kept.
Proof.
  revert acc. induction rs as [| r rs IH]; intros acc; simpl.
  - exists []. by rewrite app_nil_r.
  - destruct (node_stats_step_cases r acc) as [E | [E | [e E]]]; rewrite E; simpl.
    + destruct (IH acc) as (kept & Hsub & ->). exists kept. split; [| done].
      by apply sublist_cons.
    + destruct (IH (acc ++ [node_of_record r])) as (kept & Hsub & ->).
      exists (r :: kept). split; [by apply sublist_skip |].
      by rewrite <- app_assoc.
    + exists []. split; [apply sublist_nil_l | by rewrite app_nil_r].
Qed.

Lemma iterate_label_records counts acc :
  iterate node_stats_step (map label_record counts) None acc
  = (acc ++ map (fun c => node_of_record (label_record c)) counts, None).
Proof.
  revert acc. induction counts as [| c counts IH]; intros acc; simpl.
  - by rewrite app_nil_r.
  - change (node_stats_step (label_record c) acc)
      with (Ok (acc ++ [node_of_record (label_record c)])).
    simpl. rewrite IH, <- app_assoc. reflexivity.
Qed.

Lemma sublist_bool_filter {A} (p : A -> bool) (l : list A) :
  List.filter p l `sublist_of` l.
Proof.
  induction l as [| x l IH]; simpl; [constructor |].
  destruct (p x); [by apply sublist_skip | by apply sublist_cons].
Qed.

Lemma rows_for_groups index_info node_stats :
  Forall2 (fun node group =>
             (List.filter (covers (Label node)) index_info = []
              /\ group = [no_index_row node])
             \/ (List.filter (covers (Label node)) index_info <> []
                 /\ group = map (typed_row node)
                               (List.filter (covers (Label node)) index_info)))
          node_stats (map (rows_for index_info) node_stats).
Proof.
  induction node_stats as [| node rest IH]; simpl; constructor; [| exact IH].
  unfold rows_for.
  destruct (List.filter (covers (Label node)) index_info); [by left | by right].
Qed.

(** C10: [get_node_stats] keeps the order of its inputs.  The label counts
    it collects are made of records [kept] that the query yielded, in the
    order they arrived; its output is the concatenation of one group of
    rows per label count, in the order of the label counts; the group of a
    label count is the single row without index, or one row per matching
    index in the order of the catalog.  When the label count query answers
    over a graph, the label counts arrive in ascending order of label, one
    per label. *)
Theorem C10_node_rows_keep_order w self s rs broken :
  label_outcome w = Rows rs broken ->
  Forall (fun idx => typed_index idx = true) (fetched_index_info w) ->
  exists (kept : list record) (groups : list (list node_row)),
    kept `sublist_of` rs
    /\ collected_node_stats w = map node_of_record kept
    /\ fst (get_node_stats w self s) = Ok (concat groups)
    /\ Forall2 (fun node group =>
                  (List.filter (covers (Label node)) (fetched_index_info w) = []
                   /\ group = [no_index_row node])
                  \/ (List.filter (covers (Label node)) (fetched_index_info w) <> []
                      /\ group = map (typed_row node)
                                    (List.filter (covers (Label node)) (fetched_index_info w))))
               (collected_node_stats w) groups
    /\ (forall label,
          List.filter (covers label) (fetched_index_info w)
            `sublist_of` fetched_index_info w)
    /\ (forall g, rs = label_count_query g -> broken = None ->
          exists counts : list (string * nat),
            collected_node_stats w
            = map (fun c => {| Label := PStr (fst c);
                               Count := PInt (Z.of_nat (snd c)) |}) counts
            /\ Sorted label_le counts
            /\ NoDup (map fst counts)).
Proof.
  intros Hl Ht.
  destruct (iterate_node_stats_sublist rs broken []) as (kept & Hsub & Hkept).
  exists kept, (map (rows_for (fetched_index_info w)) (collected_node_stats w)).
  split; [exact Hsub |]. split; [by unfold collected_node_stats; rewrite Hl |].
  split; [| split; [apply rows_for_groups | split; [intros; apply sublist_bool_filter |]]].
  - rewrite (get_node_stats_result _ _ _ _ _ Hl), (combine_typed _ _ Ht).
    by rewrite flat_map_concat_map.
  - intros g -> ->. unfold collected_node_stats. rewrite Hl.
    unfold label_count_query. rewrite iterate_label_records. simpl.
    exists (merge_sort label_le (group_count (unwind_labels g))).
    split; [reflexivity | split].
    + apply Sorted_merge_sort, _.
    + rewrite (Permutation_map fst (merge_sort_Permutation _ _)), group_count_keys.
      apply NoDup_remove_dups.
Qed.

Lemma C10_witness :
  exists (kept : list record) (groups : list (list node_row)),
    kept `sublist_of` label_count_query example_graph
    /\ collected_node_stats (healthy_world example_graph [idx1; lookup_index; idx2])
       = map node_of_record kept
    /\ fst (get_node_stats (healthy_world example_graph [idx1; lookup_index; idx2])
              some_stats (init_state []))
       = Ok (concat groups).
Proof.
  destruct (C10_node_rows_keep_order
              (healthy_world example_graph [idx1; lookup_index; idx2])
              some_stats (init_state []) (label_count_query example_graph) None eq_refl)
    as (kept & groups & H1 & H2 & H3 & _).
  - repeat constructor.
  - exists kept, groups. by repeat split.
Defined.

Example node_rows_order_example :
  fst (get_node_stats (healthy_world example_graph [idx1; lookup_index; idx2])
         some_stats (init_state []))
  = Ok [{| Node_Label := PStr "Company"; Node_Count := PInt 1;
           Index_Name := PStr "idx2"; Index_Type := PStr "RANGE";
           Indexed_Property := "name, born" |};
        {| Node_Label := PStr "Employee"; Node_Count := PInt 1;
           Index_Name := PStr "No Index"; Index_Type := PStr "N/A";
           Indexed_Property := "N/A" |};
        {| Node_Label := PStr "Person"; Node_Count := PInt 2;
           Index_Name := PStr "idx1"; Index_Type := PStr "N/A";
           Indexed_Property := "email" |};
        {| Node_Label := PStr "Person"; Node_Count := PInt 2;
           Index_Name := PStr "idx2"; Index_Type := PStr "RANGE";
           Indexed_Property := "name, born" |}].
Proof. vm_compute. reflexivity. Qed.

(** ** The choice of the database *)

(** One round of the loop: [input], then the three branches. *)
Lemma choice_loop_round w lines stats tr :
  choice_loop w lines stats tr
  = match input (nl +:+ "Select database (1 or 2): ")
            {| stdin := lines; stats_var := stats; trace := tr |} with
    | (Ok line, s') =>
        if String.eqb (strip line) "1" then
          (Ok (getenv w "LOCAL_NEO4J_URI", getenv w "LOCAL_NEO4J_USERNAME",
               getenv w "LOCAL_NEO4J_PASSWORD"), s')
        else if String.eqb (strip line) "2" then
          (Ok (getenv w "NEO4J_URI", getenv w "NEO4J_USERNAME",
               getenv w "NEO4J_PASSWORD"), s')
        else
          choice_loop w (stdin s') (stats_var s')
            (trace s' ++ [EvPrint "Invalid choice. Please select 1 or 2."])
    | (Raise e, s') => (Raise e, s')
    end.
Proof. destruct lines as [| line rest]; reflexivity. Qed.

Lemma choice_loop_invalid w pre rest stats tr :
  Forall invalid_choice pre ->
  choice_loop w (pre ++ rest) stats tr
  = choice_loop w rest stats (tr ++ rounds (length pre)).
Proof.
  intros H. revert tr. induction H as [| line pre [H1 H2] _ IH]; intros tr; simpl.
  - by rewrite app_nil_r.
  - apply String.eqb_neq in H1, H2. rewrite H1, H2, IH.
    f_equal. rewrite <- !app_assoc. reflexivity.
Qed.

Lemma choice_loop_valid w line rest stats tr :
  strip line = "1" \/ strip line = "2" ->
  choice_loop w (line :: rest) stats tr
  = (Ok (if String.eqb (strip line) "1"
         then (getenv w "LOCAL_NEO4J_URI", getenv w "LOCAL_NEO4J_USERNAME",
               getenv w "LOCAL_NEO4J_PASSWORD")
         else (getenv w "NEO4J_URI", getenv w "NEO4J_USERNAME",
               getenv w "NEO4J_PASSWORD")),
     {| stdin := rest; stats_var := stats; trace := tr ++ [choice_prompt] |}).
Proof. intros [E | E]; simpl; rewrite E; reflexivity. Qed.

Lemma first_valid_choice (lines : list string) :
  Forall invalid_choice lines
  \/ exists pre line rest,
       lines = pre ++ line :: rest /\ Forall invalid_choice pre
       /\ (strip line = "1" \/ strip line = "2").
Proof.
  induction lines as [| line lines IH]; [by left |].
  destruct (decide (strip line = "1")) as [E1 | N1];
    [right; exists [], line, lines; by repeat split; [| left] |].
  destruct (decide (strip line = "2")) as [E2 | N2];
    [right; exists [], line, lines; by repeat split; [| right] |].
  destruct IH as [H | (pre & l & rest & -> & H & Hv)].
  - left. by constructor.
  - right. exists (line :: pre), l, rest. split; [done |]. split; [| done].
    by constructor.
Qed.

Lemma get_db_choice_unfold w s :
  get_db_choice w s = choice_loop w (stdin s) (stats_var s) (trace s ++ banner).
Proof.
  unfold get_db_choice, print, bind, emit. simpl. by rewrite <- !app_assoc.
Qed.

(** C8 (amended): [get_db_choice] returns exactly when it reads a line
    that is "1" or "2" once leading and trailing white space is stripped.
    Every line before it that is neither is answered with the message for
    an invalid choice and a new prompt, however many there are; the first
    valid line decides the result: the variables LOCAL_NEO4J_URI,
    LOCAL_NEO4J_USERNAME and LOCAL_NEO4J_PASSWORD for "1", and NEO4J_URI,
    NEO4J_USERNAME and NEO4J_PASSWORD for "2".  When standard input ends
    before a valid line, [input] raises [EOFError]. *)
Theorem C8_db_choice_first_valid_entry w s :
  (forall pre line rest,
      stdin s = pre ++ line :: rest ->
      Forall invalid_choice pre ->
      strip line = "1" \/ strip line = "2" ->
      get_db_choice w s
      = (Ok (if String.eqb (strip line) "1"
             then (getenv w "LOCAL_NEO4J_URI", getenv w "LOCAL_NEO4J_USERNAME",
                   getenv w "LOCAL_NEO4J_PASSWORD")
             else (getenv w "NEO4J_URI", getenv w "NEO4J_USERNAME",
                   getenv w "NEO4J_PASSWORD")),
         {| stdin := rest; stats_var := stats_var s;
            trace := trace s ++ banner ++ rounds (length pre) ++ [choice_prompt] |}))
  /\ (Forall invalid_choice (stdin s) ->
      get_db_choice w s
      = (Raise EOFError,
         {| stdin := []; stats_var := stats_var s;
            trace := trace s ++ banner ++ rounds (length (stdin s)) ++ [choice_prompt] |}))
  /\ (forall creds s',
        get_db_choice w s = (Ok creds, s') ->
        exists pre line,
          stdin s = pre ++ line :: stdin s' /\ Forall invalid_choice pre
          /\ (strip line = "1" \/ strip line = "2")).
Proof.
  assert (forall pre line rest,
             stdin s = pre ++ line :: rest -> Forall invalid_choice pre ->
             strip line = "1" \/ strip line = "2" ->
             get_db_choice w s
             = (Ok (if String.eqb (strip line) "1"
                    then (getenv w "LOCAL_NEO4J_URI", getenv w "LOCAL_NEO4J_USERNAME",
                          getenv w "LOCAL_NEO4J_PASSWORD")
                    else (getenv w "NEO4J_URI", getenv w "NEO4J_USERNAME",
                          getenv w "NEO4J_PASSWORD")),
                {| stdin := rest; stats_var := stats_var s;
                   trace := trace s ++ banner ++ rounds (length pre) ++ [choice_prompt] |}))
    as Hvalid.
  { intros pre line rest Hin Hpre Hline.
    rewrite get_db_choice_unfold, Hin, (choice_loop_invalid _ _ _ _ _ Hpre),
      (choice_loop_valid _ _ _ _ _ Hline).
    by rewrite <- !app_assoc. }
  assert (Forall invalid_choice (stdin s) ->
          get_db_choice w s
          = (Raise EOFError,
             {| stdin := []; stats_var := stats_var s;
                trace := trace s ++ banner ++ rounds (length (stdin s)) ++ [choice_prompt] |}))
    as Heof.
  { intros Hall. rewrite get_db_choice_unfold.
    rewrite <- (app_nil_r (stdin s)) at 1.
    rewrite (choice_loop_invalid _ _ _ _ _ Hall). simpl.
    by rewrite <- !app_assoc. }
  split; [exact Hvalid | split; [exact Heof |]].
  intros creds s' Hret.
  destruct (first_valid_choice (stdin s)) as [Hall | (pre & line & rest & Hin & Hpre & Hline)].
  - rewrite (Heof Hall) in Hret. discriminate.
  - rewrite (Hvalid _ _ _ Hin Hpre Hline) in Hret. injection Hret as _ <-. simpl.
    by exists pre, line.
Qed.

Lemma C8_witness :
  get_db_choice example_world (init_state ["3"; ""; " 2 "; "1"])
  = (Ok (Some "neo4j+s://db.example", Some "remote", Some "hunter2"),
     {| stdin := ["1"]; stats_var := None;
        trace := [] ++ banner ++ rounds 2 ++ [choice_prompt] |}).
Proof.
  destruct (C8_db_choice_first_valid_entry example_world
              (init_state ["3"; ""; " 2 "; "1"])) as [H _].
  apply (H ["3"; ""] " 2 " ["1"] eq_refl).
  - repeat constructor; discriminate.
  - right. reflexivity.
Defined.

(** C8 as stated fails: [get_db_choice] also returns on a line that is
    neither "1" nor "2", here a "1" between two spaces. *)
Lemma C8_counterexample :
  ~ (forall w s creds s',
        get_db_choice w s = (Ok creds, s') ->
        exists line, line ∈ stdin s /\ (line = "1" \/ line = "2")).
Proof.
  intros H.
  destruct (H example_world (init_state [" 1 "])
              (Some "bolt://localhost:7687", Some "neo4j", Some "secret")
              {| stdin := []; stats_var := None;
                 trace := banner ++ [choice_prompt] |} eq_refl)
    as (line & Hin & Hline).
  apply list_elem_of_singleton in Hin. subst line.
  destruct Hline as [E | E]; discriminate E.
Qed.

(** ** The connection *)

Lemma quiet_ret {A} (a : A) : quiet (ret a).
Proof. intros s. exists []. simpl. by rewrite app_nil_r. Qed.

Lemma quiet_raise {A} e : quiet (@raise A e).
Proof. intros s. exists []. simpl. by rewrite app_nil_r. Qed.

Lemma quiet_lift {A} (r : result A) : quiet (lift r).
Proof. intros s. exists []. simpl. by rewrite app_nil_r. Qed.

Lemma quiet_emit e : session_event e -> quiet (emit e).
Proof.
  intros He s. exists [e]. simpl. split; [done |]. split; [done |].
  by constructor.
Qed.

Lemma quiet_bind {A B} (m : M A) (k : A -> M B) :
  quiet m -> (forall a, quiet (k a)) -> quiet (bind m k).
Proof.
  intros Hm Hk s. unfold bind. destruct (Hm s) as (evs & Ht & Hs & Hf).
  destruct (m s) as [[a | e] s1]; simpl in *.
  - destruct (Hk a s1) as (evs' & Ht' & Hs' & Hf'). exists (evs ++ evs').
    rewrite Ht', Ht, Hs', Hs, <- app_assoc. by rewrite Forall_app.
  - by exists evs.
Qed.

Lemma quiet_try_except {A} (m : M A) (h : exn -> M A) :
  quiet m -> (forall e, quiet (h e)) -> quiet (try_except m h).
Proof.
  intros Hm Hh s. unfold try_except. destruct (Hm s) as (evs & Ht & Hs & Hf).
  destruct (m s) as [[a | e] s1]; simpl in *.
  - by exists evs.
  - destruct (Hh e s1) as (evs' & Ht' & Hs' & Hf'). exists (evs ++ evs').
    rewrite Ht', Ht, Hs', Hs, <- app_assoc. by rewrite Forall_app.
Qed.

Lemma quiet_try_finally {A} (m : M A) (f : M unit) :
  quiet m -> quiet f -> quiet (try_finally m f).
Proof.
  intros Hm Hf s. unfold try_finally. destruct (Hm s) as (evs & Ht & Hs & Hall).
  destruct (m s) as [r s1]; simpl in *.
  destruct (Hf s1) as (evs' & Ht' & Hs' & Hall').
  exists (evs ++ evs'). destruct (f s1) as [[[] | e] s2]; simpl in *;
    rewrite Ht', Ht, Hs', Hs, <- app_assoc; by rewrite Forall_app.
Qed.

Lemma quiet_warn pre caught : quiet (warn pre caught).
Proof.
  destruct caught as [e |]; simpl; [by apply quiet_emit | apply quiet_ret].
Qed.

Lemma quiet_session_run {A} q (o : outcome A) : quiet (session_run q o).
Proof.
  unfold session_run. apply quiet_bind; [by apply quiet_emit | intros _].
  destruct o; [apply quiet_raise | apply quiet_ret].
Qed.

Lemma quiet_result_data {A} (r : list A * option exn) : quiet (result_data r).
Proof.
  unfold result_data. destruct (snd r); [apply quiet_raise | apply quiet_ret].
Qed.

Lemma quiet_with_session {A} (body : M A) : quiet body -> quiet (with_session body).
Proof.
  intros H. unfold with_session. apply quiet_bind; [by apply quiet_emit | intros _].
  apply quiet_try_finally; [done | by apply quiet_emit].
Qed.

Create HintDb quiet.
#[local] Hint Resolve quiet_ret quiet_raise quiet_lift quiet_warn quiet_session_run
  quiet_result_data quiet_with_session quiet_try_except quiet_try_finally : quiet.
#[local] Hint Extern 1 (quiet (emit _)) => apply quiet_emit; by split : quiet.
#[local] Hint Extern 1 (quiet (print _)) => apply quiet_emit; by split : quiet.
#[local] Hint Extern 2 (quiet (bind _ _)) => apply quiet_bind; [| intros ?] : quiet.

Lemma quiet_get_node_stats w self : quiet (get_node_stats w self).
Proof. unfold get_node_stats. auto 12 with quiet. Qed.

Lemma quiet_get_relationship_stats w self : quiet (get_relationship_stats w self).
Proof. unfold get_relationship_stats. auto 12 with quiet. Qed.

Lemma quiet_report w tn tr stats : quiet (report w tn tr stats).
Proof.
  unfold report.
  auto 20 using quiet_get_node_stats, quiet_get_relationship_stats with quiet.
Qed.

Lemma quiet_choice_loop w lines stats tr :
  exists evs,
    trace (snd (choice_loop w lines stats tr)) = tr ++ evs
    /\ stats_var (snd (choice_loop w lines stats tr)) = stats
    /\ Forall session_event evs.
Proof.
  revert tr. induction lines as [| line rest IH]; intros tr; simpl.
  - eexists. split; [reflexivity |]. split; [done | by repeat constructor].
  - destruct (String.eqb (strip line) "1");
      [eexists; split; [reflexivity |]; split; [done | by repeat constructor] |].
    destruct (String.eqb (strip line) "2");
      [eexists; split; [reflexivity |]; split; [done | by repeat constructor] |].
    destruct (IH ((tr ++ [EvPrompt (nl +:+ "Select database (1 or 2): ")])
                  ++ [EvPrint "Invalid choice. Please select 1 or 2."]))
      as (evs & Ht & Hs & Hall).
    exists ([EvPrompt (nl +:+ "Select database (1 or 2): ");
             EvPrint "Invalid choice. Please select 1 or 2."] ++ evs).
    rewrite Ht, Hs, <- !app_assoc. split; [done |]. split; [done |].
    apply Forall_app. split; [by repeat constructor | done].
Qed.

Lemma quiet_get_db_choice w : quiet (get_db_choice w).
Proof.
  intros s. rewrite get_db_choice_unfold.
  destruct (quiet_choice_loop w (stdin s) (stats_var s) (trace s ++ banner))
    as (evs & Ht & Hs & Hall).
  exists (banner ++ evs). rewrite Ht, Hs, <- app_assoc. split; [done |]. split; [done |].
  apply Forall_app. split; [by repeat constructor | done].
Qed.

Lemma count_events_app p tr1 tr2 :
  count_events p (tr1 ++ tr2) = count_events p tr1 + count_events p tr2.
Proof. unfold count_events. by rewrite List.filter_app, length_app. Qed.

Lemma count_events_session evs :
  Forall session_event evs ->
  count_events is_open evs = 0 /\ count_events is_close evs = 0.
Proof.
  unfold count_events. induction 1 as [| e evs [Ho Hc] _ [IH1 IH2]]; [done |].
  simpl. by rewrite Ho, Hc.
Qed.

Lemma main_unfold w tn tr :
  main w tn tr
  = (creds <- get_db_choice w ;;
     set_stats None ;;
     try_finally
       (try_except
          (stats <- Neo4jStats_init w (fst (fst creds)) (snd (fst creds)) (snd creds) ;;
           set_stats (Some stats) ;;
           report w tn tr stats)
          (fun e => emit (EvPrintExn "Error: " e)))
       (stats <- get_stats ;;
        match stats with
        | Some stats => close stats
        | None => ret tt
        end))%prog.
Proof. reflexivity. Qed.

(** What a run of [main] adds to the trace, in its three shapes: no
    driver at all, or one driver opened, used and closed last. *)
Lemma main_trace w tn tr s :
  exists r s' evs,
    main w tn tr s = (r, s')
    /\ trace s' = trace s ++ evs
    /\ ((Forall session_event evs
         /\ ((exists e s1, get_db_choice w s = (Raise e, s1))
             \/ (exists e, driver_outcome w = Some e)))
        \/ (exists pre mid creds s1,
              get_db_choice w s = (Ok creds, s1)
              /\ driver_outcome w = None
              /\ evs = pre ++ EvDriverOpen (fst (fst creds)) (snd (fst creds)) (snd creds)
                           :: mid ++ [EvDriverClose]
              /\ Forall session_event pre /\ Forall session_event mid
              /\ r = Ok tt /\ stats_var s' <> None)).
Proof.
  rewrite main_unfold. unfold bind at 1.
  destruct (quiet_get_db_choice w s) as (ev0 & Ht0 & Hs0 & Hall0).
  destruct (get_db_choice w s) as [[creds | e] s1] eqn:Hc; simpl in Ht0, Hs0.
  2:{ exists (Raise e), s1, ev0. split; [done |]. split; [done |].
      left. split; [done |]. left. eauto. }
  unfold bind at 1. unfold set_stats at 1. unfold try_finally, try_except.
  unfold bind at 1. unfold Neo4jStats_init.
  destruct (driver_outcome w) as [e |] eqn:Hd.
  - eexists _, _, (ev0 ++ [EvPrintExn "Error: " e]). simpl.
    split; [reflexivity |]. simpl.
    rewrite Ht0, <- app_assoc. split; [done |]. left. split; [| right; eauto].
    apply Forall_app. split; [done | by repeat constructor].
  - unfold bind at 1. unfold emit at 1. unfold ret at 1. unfold bind at 1.
    unfold set_stats at 1. cbv beta iota. simpl stdin. simpl stats_var. simpl trace.
    set (st := {| driver := (creds.1.1, creds.1.2, creds.2) |}).
    set (s4 := {| stdin := stdin s1; stats_var := Some st;
                  trace := trace s1 ++ [EvDriverOpen creds.1.1 creds.1.2 creds.2] |}).
    destruct (quiet_report w tn tr st s4) as (ev1 & Ht1 & Hs1 & Hall1).
    destruct (report w tn tr st s4) as [[[] | e] s5]; simpl in Ht1, Hs1.
    + unfold bind, get_stats. rewrite Hs1. simpl.
      eexists _, _,
        (ev0 ++ EvDriverOpen creds.1.1 creds.1.2 creds.2 :: ev1 ++ [EvDriverClose]).
      split; [reflexivity |]. simpl.
      rewrite Ht1. unfold s4. simpl. rewrite Ht0.
      split; [by rewrite <- !app_assoc |]. right.
      exists ev0, ev1, creds, s1.
      repeat split; try done. by rewrite Hs1.
    + unfold bind, get_stats, emit. simpl. rewrite Hs1. simpl.
      eexists _, _,
        (ev0 ++ EvDriverOpen creds.1.1 creds.1.2 creds.2
             :: (ev1 ++ [EvPrintExn "Error: " e]) ++ [EvDriverClose]).
      split; [reflexivity |]. simpl.
      rewrite Ht1. unfold s4. simpl. rewrite Ht0.
      split; [by rewrite <- !app_assoc |]. right.
      exists ev0, (ev1 ++ [EvPrintExn "Error: " e]), creds, s1.
      split; [done |]. split; [done |]. split; [done |]. split; [done |].
      split; [apply Forall_app; split; [done | by repeat constructor] |].
      by split.
Qed.

(** C7: a run of [main] opens at most one driver and closes as many as
    it opens.  Once [get_db_choice] has returned and the driver has been
    constructed, [main] returns normally, and the trace it adds is the
    opening of the driver, then events [mid] of the sessions, warnings,
    tables and the error message of the handler, whatever fails among
    them, and last the one closing of the driver, made by the [finally]
    block. *)
Theorem C7_connection_closed_once w tn tr s :
  exists r s' evs,
    main w tn tr s = (r, s')
    /\ trace s' = trace s ++ evs
    /\ count_events is_open evs <= 1
    /\ count_events is_close evs = count_events is_open evs
    /\ (forall creds s1,
          get_db_choice w s = (Ok creds, s1) ->
          driver_outcome w = None ->
          r = Ok tt
          /\ count_events is_close evs = 1
          /\ exists pre mid,
               evs = pre ++ EvDriverOpen (fst (fst creds)) (snd (fst creds)) (snd creds)
                         :: mid ++ [EvDriverClose]
               /\ Forall session_event pre /\ Forall session_event mid).
Proof.
  destruct (main_trace w tn tr s) as (r & s' & evs & Hm & Ht & Hcases).
  exists r, s', evs. split; [done |]. split; [done |].
  destruct Hcases as [[Hall Hwhy]
                     | (pre & mid & creds & s1 & Hc & Hd & -> & Hpre & Hmid & -> & _)].
  - destruct (count_events_session _ Hall) as [-> ->].
    split; [lia |]. split; [done |]. intros creds s1 Hc Hd.
    destruct Hwhy as [(e & s2 & Hc') | (e & Hd')]; congruence.
  - destruct (count_events_session _ Hpre) as [Hpo Hpc].
    destruct (count_events_session _ Hmid) as [Hmo Hmc].
    assert (count_events is_open
              (pre ++ EvDriverOpen creds.1.1 creds.1.2 creds.2 :: mid ++ [EvDriverClose]) = 1
            /\ count_events is_close
                 (pre ++ EvDriverOpen creds.1.1 creds.1.2 creds.2 :: mid ++ [EvDriverClose]) = 1)
      as [Ho Hcl].
    { change (EvDriverOpen creds.1.1 creds.1.2 creds.2 :: mid ++ [EvDriverClose])
        with ([EvDriverOpen creds.1.1 creds.1.2 creds.2] ++ mid ++ [EvDriverClose]).
      rewrite !count_events_app, Hpo, Hpc, Hmo, Hmc. by split. }
    rewrite Ho, Hcl. split; [lia |]. split; [done |].
    intros creds' s1' Hc' Hd'. rewrite Hc in Hc'. injection Hc' as <- <-.
    split; [done |]. split; [done |]. by exists pre, mid.
Qed.

Lemma C7_witness :
  exists r s' evs,
    main label_run_fails_world no_table no_table (init_state ["1"]) = (r, s')
    /\ trace s' = [] ++ evs
    /\ r = Ok tt
    /\ count_events is_close evs = 1.
Proof.
  destruct (C7_connection_closed_once label_run_fails_world no_table no_table
              (init_state ["1"])) as (r & s' & evs & Hm & Ht & _ & _ & Himp).
  exists r, s', evs. split; [exact Hm |]. split; [exact Ht |].
  destruct (Himp (Some "bolt://localhost:7687", Some "neo4j", Some "secret")
              {| stdin := []; stats_var := None; trace := banner ++ [choice_prompt] |}
              eq_refl eq_refl) as (Hr & Hc & _).
  by split.
Defined.

(** ** Failures of the queries *)

Lemma get_node_stats_run w self s rs broken :
  label_outcome w = Rows rs broken ->
  get_node_stats w self s
  = (combine (fetched_index_info w) (collected_node_stats w) [],
     {| stdin := stdin s;
        stats_var := stats_var s;
        trace := trace s
                 ++ [EvSessionOpen; EvRun LabelCountQuery]
                 ++ warning "Warning: Error processing node labels: "
                      (snd (iterate node_stats_step rs broken []))
                 ++ [EvRun IndexCatalogQuery]
                 ++ warning "Warning: Could not fetch index information: "
                      (index_failure w)
                 ++ [EvSessionClose] |}).
Proof.
  intros Hl. unfold get_node_stats, collected_node_stats, fetched_index_info,
    index_failure, with_session, session_run, result_data, try_finally, try_except,
    bind, emit, warn, lift, ret, raise.
  rewrite Hl. simpl.
  destruct (iterate node_stats_step rs broken []) as [node_stats [e |]]; simpl;
    (destruct (index_outcome w) as [e' | data [e' |]]; simpl;
     rewrite ?list_or_empty_id;
     match goal with
     | |- context [combine ?i ?n []] =>
         destruct (combine i n []) as [rows | e'']; simpl;
         rewrite ?list_or_empty_id, <- ?app_assoc; reflexivity
     end).
Qed.

Lemma get_relationship_stats_run w self s rs broken :
  rel_outcome w = Rows rs broken ->
  get_relationship_stats w self s
  = (Ok (fst (iterate rel_stats_step rs broken [])),
     {| stdin := stdin s;
        stats_var := stats_var s;
        trace := trace s
                 ++ [EvSessionOpen; EvRun RelationshipCountQuery]
                 ++ warning "Warning: Error processing relationships: "
                      (snd (iterate rel_stats_step rs broken []))
                 ++ [EvSessionClose] |}).
Proof.
  intros Hr. unfold get_relationship_stats, with_session, session_run, try_finally,
    bind, emit, warn, ret, raise. rewrite Hr. simpl.
  destruct (iterate rel_stats_step rs broken []) as [rel_stats [e |]]; simpl;
    rewrite list_or_empty_id, <- ?app_assoc; reflexivity.
Qed.

Lemma iterate_broken {A S} (body : A -> S -> result S) rs e acc :
  exists e', snd (iterate body rs (Some e) acc) = Some e'.
Proof.
  revert acc. induction rs as [| r rs IH]; intros acc; simpl; [eauto |].
  destruct (body r acc); [apply IH | eauto].
Qed.

(** C4 (amended): every query has a guard of its own.  An exception raised
    while the records of the label count query or of the relationship
    count query are read is caught and printed as a warning, and the rows
    made so far are kept; an exception raised when the index catalog is
    requested or read is caught and printed as a warning, and the catalog
    is taken as empty.  None of them ends the run: over a well-typed
    catalog and with a renderer that returns, [main] sends all three
    queries, prints both tables, closes the driver and returns. *)
Theorem C4_guarded_failures w tn tr s creds s1 rs_l b_l rs_r b_r t1 t2 :
  get_db_choice w s = (Ok creds, s1) ->
  driver_outcome w = None ->
  label_outcome w = Rows rs_l b_l ->
  rel_outcome w = Rows rs_r b_r ->
  Forall (fun idx => typed_index idx = true) (fetched_index_info w) ->
  tn (flat_map (rows_for (fetched_index_info w)) (collected_node_stats w)) = Ok t1 ->
  tr (fst (iterate rel_stats_step rs_r b_r [])) = Ok t2 ->
  main w tn tr s
  = (Ok tt,
     {| stdin := stdin s1;
        stats_var := Some {| driver := (fst (fst creds), snd (fst creds), snd creds) |};
        trace := trace s1
                 ++ [EvDriverOpen (fst (fst creds)) (snd (fst creds)) (snd creds);
                     EvSessionOpen; EvRun LabelCountQuery]
                 ++ warning "Warning: Error processing node labels: "
                      (snd (iterate node_stats_step rs_l b_l []))
                 ++ [EvRun IndexCatalogQuery]
                 ++ warning "Warning: Could not fetch index information: "
                      (index_failure w)
                 ++ [EvSessionClose; EvPrint (nl +:+ "Node Statistics:"); EvTable t1;
                     EvSessionOpen; EvRun RelationshipCountQuery]
                 ++ warning "Warning: Error processing relationships: "
                      (snd (iterate rel_stats_step rs_r b_r []))
                 ++ [EvSessionClose; EvPrint (nl +:+ "Relationship Statistics:");
                     EvTable t2; EvDriverClose] |})
  /\ (forall e, b_l = Some e ->
        exists e', snd (iterate node_stats_step rs_l b_l []) = Some e')
  /\ (forall e, b_r = Some e ->
        exists e', snd (iterate rel_stats_step rs_r b_r []) = Some e')
  /\ (forall e, index_failure w = Some e -> fetched_index_info w = []).
Proof.
  intros Hc Hd Hl Hr Ht Htn Htr. split; [| split; [| split]].
  - rewrite main_unfold. unfold bind at 1. rewrite Hc.
    unfold bind at 1. unfold set_stats at 1. unfold try_finally, try_except.
    unfold bind at 1. unfold Neo4jStats_init. rewrite Hd.
    unfold bind at 1. unfold emit at 1. unfold ret at 1. unfold bind at 1.
    unfold set_stats at 1. cbv beta iota. simpl stdin. simpl stats_var. simpl trace.
    unfold report. unfold bind at 1.
    rewrite (get_node_stats_run _ _ _ _ _ Hl), (combine_typed _ _ Ht).
    unfold bind at 1. unfold print at 1. unfold emit at 1.
    unfold bind at 1. unfold lift at 1. rewrite Htn.
    unfold bind at 1. unfold emit at 1. unfold bind at 1.
    rewrite (get_relationship_stats_run _ _ _ _ _ Hr).
    unfold bind at 1. unfold print at 1. unfold emit at 1.
    unfold bind at 1. unfold lift at 1. rewrite Htr.
    unfold emit at 1. unfold bind, get_stats, close, emit. simpl.
    do 2 f_equal. repeat (progress (rewrite <- ?app_assoc; simpl)).
    reflexivity.
  - intros e ->. apply iterate_broken.
  - intros e ->. apply iterate_broken.
  - unfold index_failure, fetched_index_info.
    destruct (index_outcome w) as [e' | data [e' |]]; [done | done | discriminate].
Qed.

Lemma C4_witness :
  main degraded_world no_table no_table (init_state ["2"])
  = (Ok tt,
     {| stdin := [];
        stats_var := Some {| driver := (Some "neo4j+s://db.example", Some "remote",
                                        Some "hunter2") |};
        trace := (banner ++ [choice_prompt])
                 ++ [EvDriverOpen (Some "neo4j+s://db.example") (Some "remote")
                                  (Some "hunter2");
                     EvSessionOpen; EvRun LabelCountQuery]
                 ++ [EvPrintExn "Warning: Error processing node labels: "
                                (DriverError "connection lost")]
                 ++ [EvRun IndexCatalogQuery]
                 ++ [EvPrintExn "Warning: Could not fetch index information: "
                                (DriverError "catalog unavailable")]
                 ++ [EvSessionClose; EvPrint (nl +:+ "Node Statistics:"); EvTable "";
                     EvSessionOpen; EvRun RelationshipCountQuery]
                 ++ [EvPrintExn "Warning: Error processing relationships: "
                                (DriverError "timeout")]
                 ++ [EvSessionClose; EvPrint (nl +:+ "Relationship Statistics:");
                     EvTable ""; EvDriverClose] |}).
Proof.
  refine (proj1 (C4_guarded_failures degraded_world no_table no_table (init_state ["2"])
                   (Some "neo4j+s://db.example", Some "remote", Some "hunter2")
                   {| stdin := []; stats_var := None;
                      trace := banner ++ [choice_prompt] |}
                   [label_count_record "Company" 1] (Some (DriverError "connection lost"))
                   [] (Some (DriverError "timeout")) "" ""
                   eq_refl eq_refl eq_refl eq_refl _ eq_refl eq_refl)).
  constructor.
Defined.

(** C4 as stated fails.  When [session.run] raises for the label count
    query, no guard of [get_node_stats] catches it: the run prints no
    warning, sends neither the catalog listing nor the relationship count
    query and prints no table; the handler of [main] prints the error.
    And when the label count stream breaks after a record, the row of this
    record is kept: the result of the failed query is not empty. *)
Lemma C4_counterexample :
  trace (snd (main label_run_fails_world no_table no_table (init_state ["1"])))
  = banner
    ++ [choice_prompt;
        EvDriverOpen (Some "bolt://localhost:7687") (Some "neo4j") (Some "secret");
        EvSessionOpen;
        EvRun LabelCountQuery;
        EvSessionClose;
        EvPrintExn "Error: " (DriverError "label query failed");
        EvDriverClose]
  /\ count_events (is_run IndexCatalogQuery)
       (trace (snd (main label_run_fails_world no_table no_table (init_state ["1"])))) = 0
  /\ count_events (is_run RelationshipCountQuery)
       (trace (snd (main label_run_fails_world no_table no_table (init_state ["1"])))) = 0
  /\ fst (get_relationship_stats rel_run_fails_world some_stats (init_state []))
     = Raise (DriverError "relationship query failed")
  /\ fst (get_node_stats label_stream_breaks_world some_stats (init_state []))
     = Ok [{| Node_Label := PStr "Company"; Node_Count := PInt 1;
              Index_Name := PStr "No Index"; Index_Type := PStr "N/A";
              Indexed_Property := "N/A" |}].
Proof. repeat split; vm_compute; reflexivity. Qed.

(** * Further properties of the program *)

(** ** The node table *)

Lemma iterate_all_skipped {A S} (body : A -> S -> result S) rs broken acc :
  Forall (fun r => forall acc, body r acc = Ok acc) rs ->
  iterate body rs broken acc = (acc, broken).
Proof.
  induction 1 as [| r rs Hr _ IH]; [reflexivity |]. simpl. by rewrite Hr.
Qed.

(** X1: when the label count query yields no record with a label (no
    record at all, or only records whose label is absent or null),
    [get_node_stats] returns the empty list, whatever the catalog holds,
    well typed or not, and whether or not its listing fails. *)
Theorem X1_no_labels_no_rows w self s rs broken :
  label_outcome w = Rows rs broken ->
  Forall (fun r => field r "label" = None \/ field r "label" = Some PNone) rs ->
  fst (get_node_stats w self s) = Ok [].
Proof.
  intros Hl Hrs. rewrite (get_node_stats_result _ _ _ _ _ Hl).
  unfold collected_node_stats. rewrite Hl, iterate_all_skipped; [reflexivity |].
  eapply Forall_impl; [exact Hrs |]. intros r Hr. by apply node_stats_step_skip.
Qed.

Lemma X1_witness :
  fst (get_node_stats unlabelled_world some_stats (init_state [])) = Ok [].
Proof.
  apply (X1_no_labels_no_rows unlabelled_world some_stats (init_state [])
           [[("label", PNone); ("count", PInt 4)]; [("count", PInt 5)]; []] None eq_refl).
  repeat constructor; by (left + right).
Defined.

Lemma rows_for_length index_info node :
  length (rows_for index_info node) = fan_out index_info node.
Proof.
  unfold rows_for, fan_out.
  destruct (List.filter (covers (Label node)) index_info) as [| idx idxs];
    [reflexivity |].
  rewrite length_map. simpl. lia.
Qed.

(** X2: over a well-typed catalog the node table has, for every label
    count, as many rows as the catalog has indexes on its label, and one
    row when it has none: its length is the sum of these numbers. *)
Theorem X2_node_table_length w self s rs broken :
  label_outcome w = Rows rs broken ->
  Forall (fun idx => typed_index idx = true) (fetched_index_info w) ->
  exists rows,
    fst (get_node_stats w self s) = Ok rows
    /\ length rows
       = sum_list_with (fan_out (fetched_index_info w)) (collected_node_stats w).
Proof.
  intros Hl Ht. rewrite (get_node_stats_result _ _ _ _ _ Hl), (combine_typed _ _ Ht).
  eexists. split; [reflexivity |].
  induction (collected_node_stats w) as [| node rest IH]; [reflexivity |].
  simpl. by rewrite length_app, rows_for_length, IH.
Qed.

Lemma X2_witness :
  exists rows,
    fst (get_node_stats zero_count_world some_stats (init_state [])) = Ok rows
    /\ length rows = 3.
Proof.
  destruct (X2_node_table_length zero_count_world some_stats (init_state [])
              [label_count_record "Movie" 7; label_count_record "Person" 0] None
              eq_refl) as (rows & Hrows & Hlen).
  - repeat constructor.
  - exists rows. split; [exact Hrows | exact Hlen].
Defined.

Lemma filter_covers_nil_iff label index_info :
  List.filter (covers label) index_info = []
  <-> forall idx, idx ∈ index_info -> label ∉ index_labels idx.
Proof.
  split.
  - intros Hnil idx Hin Hl. apply covers_elem_of in Hl.
    assert (In idx (List.filter (covers label) index_info)) as Hf
      by (apply filter_In; split; [by apply list_elem_of_In | done]).
    rewrite Hnil in Hf. destruct Hf.
  - intros H. apply filter_covers_nil, Forall_forall. exact H.
Qed.

Lemma rows_for_elem_of index_info node row :
  row ∈ rows_for index_info node
  <-> ((forall idx, idx ∈ index_info -> Label node ∉ index_labels idx)
       /\ row = no_index_row node)
      \/ (exists idx, idx ∈ index_info /\ Label node ∈ index_labels idx
                      /\ row = typed_row node idx).
Proof.
  unfold rows_for.
  destruct (List.filter (covers (Label node)) index_info) as [| i l] eqn:E.
  - pose proof (proj1 (filter_covers_nil_iff _ _) E) as Hno.
    rewrite list_elem_of_singleton. split.
    + intros ->. by left.
    + intros [[_ ->] | (idx & Hin & Hl & _)]; [done | by destruct (Hno idx Hin)].
  - rewrite list_elem_of_In, in_map_iff. split.
    + intros (idx & <- & Hin). right. exists idx. rewrite <- E in Hin.
      apply filter_In in Hin as [Hin Hc].
      split; [by apply list_elem_of_In |]. split; [by apply covers_elem_of | done].
    + intros [[Hno _] | (idx & Hin & Hl & ->)].
      * assert (In i (List.filter (covers (Label node)) index_info)) as Hf
          by (rewrite E; by left).
        apply filter_In in Hf as [Hi Hc]. apply covers_elem_of in Hc.
        by destruct (Hno i (proj2 (list_elem_of_In _ _) Hi)).
      * exists idx. split; [done |]. rewrite <- E. apply filter_In.
        split; [by apply list_elem_of_In | by apply covers_elem_of].
Qed.

(** X3: over a well-typed catalog the node table is the join of the label
    counts with the catalog, completed for the labels without index.  A
    row is in the table exactly when it is the row of some label count and
    some catalog entry whose [labelsOrTypes] contains its label, or the
    row without index of a label count that no catalog entry contains.  So
    an index on several labels appears under each of them, and an entry
    that contains no collected label (an index on a relationship type, a
    token lookup index) appears nowhere. *)
Theorem X3_node_table_is_join w self s rs broken :
  label_outcome w = Rows rs broken ->
  Forall (fun idx => typed_index idx = true) (fetched_index_info w) ->
  exists rows,
    fst (get_node_stats w self s) = Ok rows
    /\ forall row,
         row ∈ rows
         <-> exists node,
               node ∈ collected_node_stats w
               /\ (((forall idx, idx ∈ fetched_index_info w ->
                                 Label node ∉ index_labels idx)
                    /\ row = no_index_row node)
                   \/ (exists idx,
                         idx ∈ fetched_index_info w
                         /\ Label node ∈ index_labels idx
                         /\ row = typed_row node idx)).
Proof.
  intros Hl Ht. rewrite (get_node_stats_result _ _ _ _ _ Hl), (combine_typed _ _ Ht).
  eexists. split; [reflexivity |]. intros row.
  rewrite list_elem_of_In, in_flat_map. split.
  - intros (node & Hin & Hrow). exists node. split; [by apply list_elem_of_In |].
    by apply rows_for_elem_of, list_elem_of_In.
  - intros (node & Hin & Hrow). exists node. split; [by apply list_elem_of_In |].
    by apply list_elem_of_In, rows_for_elem_of.
Qed.

Lemma X3_witness :
  exists rows,
    fst (get_node_stats zero_count_world some_stats (init_state [])) = Ok rows
    /\ typed_row {| Label := PStr "Person"; Count := PInt 0 |} idx2 ∈ rows.
Proof.
  destruct (X3_node_table_is_join zero_count_world some_stats (init_state [])
              [label_count_record "Movie" 7; label_count_record "Person" 0] None
              eq_refl) as (rows & Hrows & Hiff).
  - repeat constructor.
  - exists rows. split; [exact Hrows |]. apply Hiff.
    exists {| Label := PStr "Person"; Count := PInt 0 |}.
    split; [right; left |].
    right. exists idx2. split; [right; right; left |]. split; [left | reflexivity].
Defined.

Lemma py_in_raise x c e : py_in x c = Raise e -> e = TypeError.
Proof.
  destruct c as [| z | t | l]; simpl; try discriminate; try (by intros [= <-]).
  destruct x; try discriminate; by intros [= <-].
Qed.

Lemma py_join_raise sep v e : py_join sep v = Raise e -> e = TypeError.
Proof.
  destruct v as [| z | t | l]; simpl; try discriminate; try (by intros [= <-]).
  destruct (all_strings l); [discriminate | by intros [= <-]].
Qed.

Lemma label_indexes_raise label index_info e :
  label_indexes label index_info = Raise e -> e = TypeError.
Proof.
  induction index_info as [| idx rest IH]; simpl; [discriminate |].
  destruct (py_in _ _) as [b | e'] eqn:E; simpl;
    [| intros [= <-]; by apply py_in_raise in E].
  destruct (label_indexes label rest) as [l | e']; simpl; [discriminate |].
  intros [= <-]. by apply IH.
Qed.

Lemma append_index_rows_raise node idxs acc e :
  append_index_rows node idxs acc = Raise e -> e = TypeError.
Proof.
  revert acc. induction idxs as [| idx rest IH]; intros acc; simpl; [discriminate |].
  unfold index_row. destruct (py_join _ _) as [props | e'] eqn:E; simpl.
  - apply IH.
  - intros [= <-]. by apply py_join_raise in E.
Qed.

Lemma combine_step_raise index_info node acc e :
  combine_step index_info node acc = Raise e -> e = TypeError.
Proof.
  unfold combine_step.
  destruct (label_indexes (Label node) index_info) as [[| idx idxs] | e'] eqn:E.
  - discriminate.
  - apply (append_index_rows_raise node (idx :: idxs) acc e).
  - simpl. intros [= <-]. by apply label_indexes_raise in E.
Qed.

Lemma combine_raise index_info node_stats acc e :
  combine index_info node_stats acc = Raise e -> e = TypeError.
Proof.
  revert acc. induction node_stats as [| node rest IH]; intros acc; simpl;
    [discriminate |].
  destruct (combine_step index_info node acc) as [acc' | e'] eqn:E; simpl.
  - apply IH.
  - intros [= <-]. by apply combine_step_raise in E.
Qed.

(** X4: [get_node_stats] raises in two ways only.  It raises what
    [session.run] raised for the label count query, or a [TypeError] of
    the unguarded loop that joins label counts and catalog.  It never
    raises an exception of the record loop (such as [KeyError]), of a
    broken stream or of the catalog listing: these are caught. *)
Theorem X4_node_stats_raises_only w self s e :
  fst (get_node_stats w self s) = Raise e ->
  label_outcome w = RunFails e \/ e = TypeError.
Proof.
  intros H. destruct (label_outcome w) as [e' | rs broken] eqn:Hl.
  - rewrite (get_node_stats_run_fails _ _ _ _ Hl) in H. left. congruence.
  - rewrite (get_node_stats_result _ _ _ _ _ Hl) in H. right.
    by apply combine_raise in H.
Qed.

Lemma X4_witness :
  label_outcome label_run_fails_world = RunFails (DriverError "label query failed")
  \/ DriverError "label query failed" = TypeError.
Proof.
  exact (X4_node_stats_raises_only label_run_fails_world some_stats (init_state [])
           (DriverError "label query failed") eq_refl).
Defined.

Lemma label_indexes_keeps label index_info idxs idx :
  label_indexes label index_info = Ok idxs ->
  idx ∈ index_info -> covers label idx = true -> idx ∈ idxs.
Proof.
  revert idxs. induction index_info as [| i rest IH]; intros idxs; simpl.
  - intros _ Hin. by apply not_elem_of_nil in Hin.
  - destruct (py_in _ _) as [b | e] eqn:E; simpl; [| discriminate].
    destruct (label_indexes label rest) as [l | e]; simpl; [| discriminate].
    intros [= <-] Hin Hc. apply elem_of_cons in Hin as [Heq | Hin].
    + subst i. unfold covers, index_labels, dict_get in *.
      destruct (idx !! "labelsOrTypes") as [[| z | t | [| x xs]] |]; try discriminate.
      simpl in E. injection E as <-. simpl in Hc. rewrite Hc. by left.
    + destruct b; [right |]; by apply IH.
Qed.

Lemma append_index_rows_null_properties node idxs acc idx :
  idx ∈ idxs -> idx !! "properties" = Some PNone ->
  append_index_rows node idxs acc = Raise TypeError.
Proof.
  intros Hin Hp. revert acc. induction idxs as [| i rest IH]; intros acc.
  - by apply not_elem_of_nil in Hin.
  - simpl. destruct (index_row node i) as [row | e] eqn:E; simpl.
    + apply elem_of_cons in Hin as [Heq | Hin]; [subst i | by apply IH].
      unfold index_row, dict_get in E. by rewrite Hp in E.
    + unfold index_row in E.
      destruct (py_join _ _) as [props | e'] eqn:Ej; simpl in E; [discriminate |].
      injection E as <-. by apply py_join_raise in Ej as ->.
Qed.

(** X5: the join is not guarded.  When the catalog has an entry whose
    [labelsOrTypes] lists the label of a collected label count and whose
    [properties] is null, [get_node_stats] raises [TypeError] instead of
    returning rows; no warning stands in for it. *)
Theorem X5_null_properties_raise w self s rs broken node idx :
  label_outcome w = Rows rs broken ->
  node ∈ collected_node_stats w ->
  idx ∈ fetched_index_info w ->
  Label node ∈ index_labels idx ->
  idx !! "properties" = Some PNone ->
  fst (get_node_stats w self s) = Raise TypeError.
Proof.
  intros Hl Hn Hi Hc Hp. rewrite (get_node_stats_result _ _ _ _ _ Hl).
  apply list_elem_of_split in Hn as (pre & post & ->). rewrite combine_split.
  destruct (combine (fetched_index_info w) pre []) as [r1 | e] eqn:E1; simpl;
    [| by apply combine_raise in E1 as ->].
  assert (combine_step (fetched_index_info w) node [] = Raise TypeError) as ->;
    [| reflexivity].
  unfold combine_step.
  destruct (label_indexes (Label node) (fetched_index_info w)) as [idxs | e] eqn:E;
    simpl; [| by apply label_indexes_raise in E as ->].
  pose proof (label_indexes_keeps _ _ _ _ E Hi (proj2 (covers_elem_of _ _) Hc)) as Hin.
  destruct idxs as [| i l]; [by apply not_elem_of_nil in Hin |].
  by apply (append_index_rows_null_properties node (i :: l) [] idx).
Qed.

Lemma X5_witness :
  fst (get_node_stats null_properties_world some_stats (init_state []))
  = Raise TypeError.
Proof.
  apply (X5_null_properties_raise null_properties_world some_stats (init_state [])
           [label_count_record "Company" 3; label_count_record "Person" 10] None
           {| Label := PStr "Person"; Count := PInt 10 |} null_properties_index eq_refl).
  - right. left.
  - right. left.
  - left.
  - reflexivity.
Defined.

Lemma iterate_app {A S} (body : A -> S -> result S) pre rest broken acc :
  snd (iterate body pre None acc) = None ->
  iterate body (pre ++ rest) broken acc
  = iterate body rest broken (fst (iterate body pre None acc)).
Proof.
  revert acc. induction pre as [| r pre IH]; intros acc; simpl; [done |].
  destruct (body r acc); [apply IH | discriminate].
Qed.

(** X6: a record that has a label and no count ends the record loop of
    [get_node_stats].  The label counts made of the records before it are
    kept, it and every record after it are dropped, and the [KeyError] of
    the missing field is printed as the warning; the catalog is then
    fetched as usual. *)
Theorem X6_missing_count_ends_loop w self s pre r post broken label :
  label_outcome w = Rows (pre ++ r :: post) broken ->
  snd (iterate node_stats_step pre None []) = None ->
  field r "label" = Some label -> label <> PNone ->
  field r "count" = None ->
  collected_node_stats w = fst (iterate node_stats_step pre None [])
  /\ get_node_stats w self s
     = (combine (fetched_index_info w) (fst (iterate node_stats_step pre None [])) [],
        {| stdin := stdin s;
           stats_var := stats_var s;
           trace := trace s
                    ++ [EvSessionOpen; EvRun LabelCountQuery;
                        EvPrintExn "Warning: Error processing node labels: "
                                   (KeyError "count");
                        EvRun IndexCatalogQuery]
                    ++ warning "Warning: Could not fetch index information: "
                         (index_failure w)
                    ++ [EvSessionClose] |}).
Proof.
  intros Hl Hpre Hlab Hnn Hcnt.
  assert (iterate node_stats_step (pre ++ r :: post) broken []
          = (fst (iterate node_stats_step pre None []), Some (KeyError "count"))) as Hit.
  { rewrite (iterate_app _ _ _ _ _ Hpre). simpl.
    unfold node_stats_step, record_get, record_item. rewrite Hlab, Hcnt.
    destruct r as [| f r']; [discriminate |]. simpl.
    by destruct label. }
  assert (collected_node_stats w = fst (iterate node_stats_step pre None [])) as Hcol
    by (unfold collected_node_stats; by rewrite Hl, Hit).
  split; [exact Hcol |].
  rewrite (get_node_stats_run _ _ _ _ _ Hl), Hcol, Hit. reflexivity.
Qed.

Lemma X6_witness :
  collected_node_stats missing_count_world
  = [{| Label := PStr "Company"; Count := PInt 3 |}].
Proof.
  destruct (X6_missing_count_ends_loop missing_count_world some_stats (init_state [])
              [label_count_record "Company" 3] [("label", PStr "Movie")]
              [label_count_record "Person" 10] None (PStr "Movie")
              eq_refl eq_refl eq_refl) as [H _]; [discriminate | reflexivity |].
  exact H.
Defined.

(** ** The relationship table *)

Lemma rel_stats_step_cases r acc :
  rel_stats_step r acc = Ok acc
  \/ rel_stats_step r acc = Ok (acc ++ [rel_row_of_record r])
  \/ exists e, rel_stats_step r acc = Raise e.
Proof.
  unfold rel_stats_step, rel_row_of_record, record_get, record_item.
  destruct (record_truthy r); simpl; [| by left].
  destruct (field r "relationshipType") as [[| z | t | l] |]; simpl; try (by left);
    (destruct (field r "startLabel") as [a |]; simpl; [| right; right; eauto];
     destruct (field r "endLabel") as [b |]; simpl; [| right; right; eauto];
     destruct (field r "count") as [c |]; simpl; [right; by left | right; right; eauto]).
Qed.

Lemma iterate_rel_stats_sublist rs broken acc :
  exists kept,
    kept `sublist_of` rs
    /\ fst (iterate rel_stats_step rs broken acc) = acc ++ map rel_row_of_record kept.
Proof.
  revert acc. induction rs as [| r rs IH]; intros acc; simpl.
  - exists []. by rewrite app_nil_r.
  - destruct (rel_stats_step_cases r acc) as [E | [E | [e E]]]; rewrite E; simpl.
    + destruct (IH acc) as (kept & Hsub & ->). exists kept. split; [| done].
      by apply sublist_cons.
    + destruct (IH (acc ++ [rel_row_of_record r])) as (kept & Hsub & ->).
      exists (r :: kept). split; [by apply sublist_skip |].
      by rewrite <- app_assoc.
    + exists []. split; [apply sublist_nil_l | by rewrite app_nil_r].
Qed.

(** X7: once [session.run] has returned for the relationship count query,
    [get_relationship_stats] returns, whatever the records hold and
    whether or not the stream breaks: a record without a field, or the
    break, ends the loop with a warning.  The rows returned are made of
    records the query yielded, in their order, with the four fields of
    the record as they are; there are at most as many rows as records. *)
Theorem X7_relationship_stats_returns w self s rs broken :
  rel_outcome w = Rows rs broken ->
  exists kept,
    kept `sublist_of` rs
    /\ fst (get_relationship_stats w self s) = Ok (map rel_row_of_record kept)
    /\ length (map rel_row_of_record kept) <= length rs.
Proof.
  intros Hr. destruct (iterate_rel_stats_sublist rs broken []) as (kept & Hsub & Hk).
  exists kept. split; [exact Hsub |].
  split; [by rewrite (get_relationship_stats_result _ _ _ _ _ Hr), Hk |].
  rewrite length_map. by apply sublist_length.
Qed.

Lemma X7_witness :
  fst (get_relationship_stats ragged_rel_world some_stats (init_state []))
  = Ok [{| Relationship := PStr "KNOWS"; Start_Node := PStr "A";
           End_Node := PStr "B"; Rel_Count := PInt 2 |}].
Proof.
  destruct (X7_relationship_stats_returns ragged_rel_world some_stats (init_state [])
              _ _ eq_refl) as (kept & _ & Hres & _).
  rewrite Hres. vm_compute in Hres. injection Hres as Hres. by rewrite Hres.
Defined.

(** ** Sessions *)

Lemma warning_inner pre caught : Forall inner_event (warning pre caught).
Proof. destruct caught; by repeat constructor. Qed.

Lemma get_node_stats_run_fails_state w self s e :
  label_outcome w = RunFails e ->
  get_node_stats w self s
  = (Raise e,
     {| stdin := stdin s; stats_var := stats_var s;
        trace := trace s ++ [EvSessionOpen; EvRun LabelCountQuery; EvSessionClose] |}).
Proof.
  intros Hl. unfold get_node_stats, with_session, session_run, try_finally, bind,
    emit, raise. rewrite Hl. simpl. by rewrite <- !app_assoc.
Qed.

Lemma get_relationship_stats_run_fails_state w self s e :
  rel_outcome w = RunFails e ->
  get_relationship_stats w self s
  = (Raise e,
     {| stdin := stdin s; stats_var := stats_var s;
        trace := trace s
                 ++ [EvSessionOpen; EvRun RelationshipCountQuery; EvSessionClose] |}).
Proof.
  intros Hr. unfold get_relationship_stats, with_session, session_run, try_finally,
    bind, emit, raise. rewrite Hr. simpl. by rewrite <- !app_assoc.
Qed.

(** X8: each of [get_node_stats] and [get_relationship_stats] opens one
    session and closes it, on every path: the events it adds to the trace
    are the opening of the session, events that neither open nor close a
    session, and the closing of the session, also when [session.run]
    raises or the join raises. *)
Theorem X8_sessions_closed w self s :
  (exists mid,
      trace (snd (get_node_stats w self s))
      = trace s ++ EvSessionOpen :: mid ++ [EvSessionClose]
      /\ Forall inner_event mid)
  /\ (exists mid,
        trace (snd (get_relationship_stats w self s))
        = trace s ++ EvSessionOpen :: mid ++ [EvSessionClose]
        /\ Forall inner_event mid).
Proof.
  split.
  - destruct (label_outcome w) as [e | rs broken] eqn:Hl.
    + rewrite (get_node_stats_run_fails_state _ _ _ _ Hl). simpl.
      exists [EvRun LabelCountQuery]. split; [done | by repeat constructor].
    + rewrite (get_node_stats_run _ _ _ _ _ Hl). simpl.
      eexists (EvRun LabelCountQuery :: warning _ _ ++ EvRun IndexCatalogQuery
                  :: warning _ _).
      split; [simpl; by rewrite <- ?app_assoc |].
      constructor; [done |]. apply Forall_app. split; [apply warning_inner |].
      constructor; [done | apply warning_inner].
  - destruct (rel_outcome w) as [e | rs broken] eqn:Hr.
    + rewrite (get_relationship_stats_run_fails_state _ _ _ _ Hr). simpl.
      exists [EvRun RelationshipCountQuery]. split; [done | by repeat constructor].
    + rewrite (get_relationship_stats_run _ _ _ _ _ Hr). simpl.
      eexists (EvRun RelationshipCountQuery :: warning _ _).
      split; [simpl; by rewrite <- ?app_assoc |].
      constructor; [done | apply warning_inner].
Qed.

(** ** The paths of [main] *)

Lemma main_without_driver w tn tr s creds s1 e :
  get_db_choice w s = (Ok creds, s1) ->
  driver_outcome w = Some e ->
  main w tn tr s
  = (Ok tt,
     {| stdin := stdin s1; stats_var := None;
        trace := trace s1 ++ [EvPrintExn "Error: " e] |}).
Proof.
  intros Hc Hd. rewrite main_unfold. unfold bind at 1. rewrite Hc.
  unfold bind at 1. unfold set_stats at 1. unfold try_finally, try_except.
  unfold bind at 1. unfold Neo4jStats_init. rewrite Hd. reflexivity.
Qed.

Lemma main_with_driver w tn tr s creds s1 :
  get_db_choice w s = (Ok creds, s1) ->
  driver_outcome w = None ->
  main w tn tr s
  = (Ok tt,
     {| stdin :=
          stdin (snd (report w tn tr
                        {| driver := (fst (fst creds), snd (fst creds), snd creds) |}
                        {| stdin := stdin s1;
                           stats_var := Some {| driver := (fst (fst creds),
                                                           snd (fst creds), snd creds) |};
                           trace := trace s1
                                    ++ [EvDriverOpen (fst (fst creds)) (snd (fst creds))
                                                     (snd creds)] |}));
        stats_var := Some {| driver := (fst (fst creds), snd (fst creds), snd creds) |};
        trace :=
          trace (snd (report w tn tr
                        {| driver := (fst (fst creds), snd (fst creds), snd creds) |}
                        {| stdin := stdin s1;
                           stats_var := Some {| driver := (fst (fst creds),
                                                           snd (fst creds), snd creds) |};
                           trace := trace s1
                                    ++ [EvDriverOpen (fst (fst creds)) (snd (fst creds))
                                                     (snd creds)] |}))
          ++ warning "Error: "
               (match fst (report w tn tr
                             {| driver := (fst (fst creds), snd (fst creds), snd creds) |}
                             {| stdin := stdin s1;
                                stats_var := Some {| driver := (fst (fst creds),
                                                                snd (fst creds),
                                                                snd creds) |};
                                trace := trace s1
                                         ++ [EvDriverOpen (fst (fst creds))
                                                          (snd (fst creds))
                                                          (snd creds)] |}) with
                | Raise e => Some e
                | Ok _ => None
                end)
          ++ [EvDriverClose] |}).
Proof.
  intros Hc Hd. rewrite main_unfold. unfold bind at 1. rewrite Hc.
  unfold bind at 1. unfold set_stats at 1. unfold try_finally, try_except.
  unfold bind at 1. unfold Neo4jStats_init. rewrite Hd.
  unfold bind at 1. unfold emit at 1. unfold ret at 1. unfold bind at 1.
  unfold set_stats at 1. cbv beta iota. simpl stdin. simpl stats_var. simpl trace.
  set (st := {| driver := (creds.1.1, creds.1.2, creds.2) |}).
  set (s4 := {| stdin := stdin s1; stats_var := Some st;
                trace := trace s1 ++ [EvDriverOpen creds.1.1 creds.1.2 creds.2] |}).
  destruct (quiet_report w tn tr st s4) as (ev1 & Ht1 & Hs1 & Hall1).
  destruct (report w tn tr st s4) as [[[] | e] s5]; simpl in Ht1, Hs1.
  - unfold bind, get_stats. rewrite Hs1. simpl. by rewrite Hs1.
  - unfold bind, get_stats, emit. simpl. rewrite Hs1. simpl.
    by rewrite <- ?app_assoc.
Qed.

(** X9: when the driver cannot be constructed, [main] prints the error
    and returns: it opens no session, sends no query, prints no table, and
    closes nothing, because [stats] is still [None] in the [finally]
    block. *)
Theorem X9_driver_failure w tn tr s creds s1 e :
  get_db_choice w s = (Ok creds, s1) ->
  driver_outcome w = Some e ->
  main w tn tr s
  = (Ok tt,
     {| stdin := stdin s1; stats_var := None;
        trace := trace s1 ++ [EvPrintExn "Error: " e] |})
  /\ count_events is_close (trace (snd (main w tn tr s))) = count_events is_close (trace s1)
  /\ queries_sent (trace (snd (main w tn tr s))) = queries_sent (trace s1).
Proof.
  intros Hc Hd. rewrite (main_without_driver _ _ _ _ _ _ _ Hc Hd). simpl.
  split; [done |]. split.
  - rewrite count_events_app. simpl. unfold count_events at 2. simpl. lia.
  - unfold queries_sent. rewrite omap_app. simpl. by rewrite app_nil_r.
Qed.

Lemma X9_witness :
  main no_driver_world no_table no_table (init_state ["1"])
  = (Ok tt,
     {| stdin := []; stats_var := None;
        trace := (banner ++ [choice_prompt])
                 ++ [EvPrintExn "Error: " (DriverError "invalid URI")] |}).
Proof.
  exact (proj1 (X9_driver_failure no_driver_world no_table no_table (init_state ["1"])
                  (Some "bolt://localhost:7687", Some "neo4j", Some "secret")
                  {| stdin := []; stats_var := None; trace := banner ++ [choice_prompt] |}
                  (DriverError "invalid URI") eq_refl eq_refl)).
Defined.

(** Both sides of an equation between traces, with the appends
    associated to the right. *)
Ltac norm_trace :=
  unfold node_stats_events, rel_stats_events;
  repeat (progress (rewrite <- ?app_assoc; simpl)).

Lemma report_label_run_fails w tn tr st s e :
  label_outcome w = RunFails e ->
  report w tn tr st s
  = (Raise e,
     {| stdin := stdin s; stats_var := stats_var s;
        trace := trace s ++ [EvSessionOpen; EvRun LabelCountQuery; EvSessionClose] |}).
Proof.
  intros Hl. unfold report. unfold bind at 1.
  by rewrite (get_node_stats_run_fails_state _ _ _ _ Hl).
Qed.

Lemma report_join_raises w tn tr st s rs broken e :
  label_outcome w = Rows rs broken ->
  combine (fetched_index_info w) (collected_node_stats w) [] = Raise e ->
  report w tn tr st s
  = (Raise e,
     {| stdin := stdin s; stats_var := stats_var s;
        trace := trace s ++ node_stats_events w rs broken |}).
Proof.
  intros Hl Hj. unfold report. unfold bind at 1.
  rewrite (get_node_stats_run _ _ _ _ _ Hl), Hj. by norm_trace.
Qed.

Lemma report_node_table_raises w tn tr st s rs broken rows e :
  label_outcome w = Rows rs broken ->
  combine (fetched_index_info w) (collected_node_stats w) [] = Ok rows ->
  tn rows = Raise e ->
  report w tn tr st s
  = (Raise e,
     {| stdin := stdin s; stats_var := stats_var s;
        trace := trace s ++ node_stats_events w rs broken
                 ++ [EvPrint (nl +:+ "Node Statistics:")] |}).
Proof.
  intros Hl Hj Htn. unfold report. unfold bind at 1.
  rewrite (get_node_stats_run _ _ _ _ _ Hl), Hj.
  unfold bind at 1. unfold print at 1. unfold emit at 1.
  unfold bind at 1. unfold lift at 1. rewrite Htn. by norm_trace.
Qed.

Lemma report_rel_run_fails w tn tr st s rs broken rows t1 e :
  label_outcome w = Rows rs broken ->
  combine (fetched_index_info w) (collected_node_stats w) [] = Ok rows ->
  tn rows = Ok t1 ->
  rel_outcome w = RunFails e ->
  report w tn tr st s
  = (Raise e,
     {| stdin := stdin s; stats_var := stats_var s;
        trace := trace s ++ node_stats_events w rs broken
                 ++ [EvPrint (nl +:+ "Node Statistics:"); EvTable t1;
                     EvSessionOpen; EvRun RelationshipCountQuery; EvSessionClose] |}).
Proof.
  intros Hl Hj Htn Hr. unfold report. unfold bind at 1.
  rewrite (get_node_stats_run _ _ _ _ _ Hl), Hj.
  unfold bind at 1. unfold print at 1. unfold emit at 1.
  unfold bind at 1. unfold lift at 1. rewrite Htn.
  unfold bind at 1. unfold emit at 1. unfold bind at 1.
  rewrite (get_relationship_stats_run_fails_state _ _ _ _ Hr). by norm_trace.
Qed.

Lemma report_rel_rows w tn tr st s rs broken rows t1 rs' broken' :
  label_outcome w = Rows rs broken ->
  combine (fetched_index_info w) (collected_node_stats w) [] = Ok rows ->
  tn rows = Ok t1 ->
  rel_outcome w = Rows rs' broken' ->
  report w tn tr st s
  = (match tr (fst (iterate rel_stats_step rs' broken' [])) with
     | Ok _ => Ok tt
     | Raise e => Raise e
     end,
     {| stdin := stdin s; stats_var := stats_var s;
        trace := trace s ++ node_stats_events w rs broken
                 ++ [EvPrint (nl +:+ "Node Statistics:"); EvTable t1]
                 ++ rel_stats_events rs' broken'
                 ++ [EvPrint (nl +:+ "Relationship Statistics:")]
                 ++ match tr (fst (iterate rel_stats_step rs' broken' [])) with
                    | Ok t2 => [EvTable t2]
                    | Raise _ => []
                    end |}).
Proof.
  intros Hl Hj Htn Hr. unfold report. unfold bind at 1.
  rewrite (get_node_stats_run _ _ _ _ _ Hl), Hj.
  unfold bind at 1. unfold print at 1. unfold emit at 1.
  unfold bind at 1. unfold lift at 1. rewrite Htn.
  unfold bind at 1. unfold emit at 1. unfold bind at 1.
  rewrite (get_relationship_stats_run _ _ _ _ _ Hr).
  unfold bind at 1. unfold print at 1. unfold emit at 1.
  unfold bind at 1. unfold lift at 1.
  destruct (tr _) as [t2 | e]; unfold emit; by norm_trace.
Qed.

(** X10: when [session.run] raises for the label count query, no guard
    of [get_node_stats] catches it.  [main] closes the session, prints the
    exception as an error, not as a warning, closes the driver and returns:
    the catalog listing and the relationship count query are not sent and
    no table is printed. *)
Theorem X10_label_run_failure w tn tr s creds s1 e :
  get_db_choice w s = (Ok creds, s1) ->
  driver_outcome w = None ->
  label_outcome w = RunFails e ->
  main w tn tr s
  = (Ok tt,
     {| stdin := stdin s1;
        stats_var := Some {| driver := (fst (fst creds), snd (fst creds), snd creds) |};
        trace := trace s1
                 ++ [EvDriverOpen (fst (fst creds)) (snd (fst creds)) (snd creds);
                     EvSessionOpen; EvRun LabelCountQuery; EvSessionClose;
                     EvPrintExn "Error: " e; EvDriverClose] |}).
Proof.
  intros Hc Hd Hl. rewrite (main_with_driver _ _ _ _ _ _ Hc Hd).
  rewrite (report_label_run_fails _ _ _ _ _ _ Hl). by norm_trace.
Qed.

Lemma X10_witness :
  main label_run_fails_world no_table no_table (init_state ["1"])
  = (Ok tt,
     {| stdin := [];
        stats_var := Some {| driver := (Some "bolt://localhost:7687", Some "neo4j",
                                        Some "secret") |};
        trace := (banner ++ [choice_prompt])
                 ++ [EvDriverOpen (Some "bolt://localhost:7687") (Some "neo4j")
                                  (Some "secret");
                     EvSessionOpen; EvRun LabelCountQuery; EvSessionClose;
                     EvPrintExn "Error: " (DriverError "label query failed");
                     EvDriverClose] |}).
Proof.
  exact (X10_label_run_failure label_run_fails_world no_table no_table
           (init_state ["1"])
           (Some "bolt://localhost:7687", Some "neo4j", Some "secret")
           {| stdin := []; stats_var := None; trace := banner ++ [choice_prompt] |}
           (DriverError "label query failed") eq_refl eq_refl eq_refl).
Defined.

(** X11: when [session.run] raises for the relationship count query, the
    node table has already been printed.  [main] then prints the exception
    as an error, without the title of the relationship table, closes the
    driver and returns. *)
Theorem X11_relationship_run_failure w tn tr s creds s1 rs broken rows t1 e :
  get_db_choice w s = (Ok creds, s1) ->
  driver_outcome w = None ->
  label_outcome w = Rows rs broken ->
  combine (fetched_index_info w) (collected_node_stats w) [] = Ok rows ->
  tn rows = Ok t1 ->
  rel_outcome w = RunFails e ->
  main w tn tr s
  = (Ok tt,
     {| stdin := stdin s1;
        stats_var := Some {| driver := (fst (fst creds), snd (fst creds), snd creds) |};
        trace := trace s1
                 ++ [EvDriverOpen (fst (fst creds)) (snd (fst creds)) (snd creds)]
                 ++ node_stats_events w rs broken
                 ++ [EvPrint (nl +:+ "Node Statistics:"); EvTable t1;
                     EvSessionOpen; EvRun RelationshipCountQuery; EvSessionClose;
                     EvPrintExn "Error: " e; EvDriverClose] |}).
Proof.
  intros Hc Hd Hl Hj Htn Hr. rewrite (main_with_driver _ _ _ _ _ _ Hc Hd).
  rewrite (report_rel_run_fails _ _ _ _ _ _ _ _ _ _ Hl Hj Htn Hr). by norm_trace.
Qed.

Lemma X11_witness :
  trace (snd (main rel_run_fails_world no_table no_table (init_state ["1"])))
  = (banner ++ [choice_prompt])
    ++ [EvDriverOpen (Some "bolt://localhost:7687") (Some "neo4j") (Some "secret")]
    ++ node_stats_events rel_run_fails_world (label_count_query example_graph) None
    ++ [EvPrint (nl +:+ "Node Statistics:"); EvTable "";
        EvSessionOpen; EvRun RelationshipCountQuery; EvSessionClose;
        EvPrintExn "Error: " (DriverError "relationship query failed");
        EvDriverClose].
Proof.
  rewrite (X11_relationship_run_failure rel_run_fails_world no_table no_table
             (init_state ["1"])
             (Some "bolt://localhost:7687", Some "neo4j", Some "secret")
             {| stdin := []; stats_var := None; trace := banner ++ [choice_prompt] |}
             (label_count_query example_graph) None
             (flat_map (rows_for [idx1])
                (collected_node_stats rel_run_fails_world)) ""
             (DriverError "relationship query failed")
             eq_refl eq_refl eq_refl eq_refl eq_refl eq_refl).
  reflexivity.
Defined.

(** X12: when the renderer raises on the node table, [main] has printed
    the title of the table and prints the exception as an error; the
    relationship count query is not sent, and the driver is closed. *)
Theorem X12_node_table_render_failure w tn tr s creds s1 rs broken rows e :
  get_db_choice w s = (Ok creds, s1) ->
  driver_outcome w = None ->
  label_outcome w = Rows rs broken ->
  combine (fetched_index_info w) (collected_node_stats w) [] = Ok rows ->
  tn rows = Raise e ->
  main w tn tr s
  = (Ok tt,
     {| stdin := stdin s1;
        stats_var := Some {| driver := (fst (fst creds), snd (fst creds), snd creds) |};
        trace := trace s1
                 ++ [EvDriverOpen (fst (fst creds)) (snd (fst creds)) (snd creds)]
                 ++ node_stats_events w rs broken
                 ++ [EvPrint (nl +:+ "Node Statistics:");
                     EvPrintExn "Error: " e; EvDriverClose] |}).
Proof.
  intros Hc Hd Hl Hj Htn. rewrite (main_with_driver _ _ _ _ _ _ Hc Hd).
  rewrite (report_node_table_raises _ _ _ _ _ _ _ _ _ Hl Hj Htn). by norm_trace.
Qed.

Lemma X12_witness :
  trace (snd (main example_world broken_table no_table (init_state ["1"])))
  = (banner ++ [choice_prompt])
    ++ [EvDriverOpen (Some "bolt://localhost:7687") (Some "neo4j") (Some "secret")]
    ++ node_stats_events example_world
         [label_count_record "Person" 10; label_count_record "Company" 3] None
    ++ [EvPrint (nl +:+ "Node Statistics:");
        EvPrintExn "Error: " (TabulateError "cannot render"); EvDriverClose].
Proof.
  rewrite (X12_node_table_render_failure example_world broken_table no_table
             (init_state ["1"])
             (Some "bolt://localhost:7687", Some "neo4j", Some "secret")
             {| stdin := []; stats_var := None; trace := banner ++ [choice_prompt] |}
             [label_count_record "Person" 10; label_count_record "Company" 3] None
             (flat_map (rows_for [idx1]) example_label_counts)
             (TabulateError "cannot render")
             eq_refl eq_refl eq_refl eq_refl eq_refl).
  reflexivity.
Defined.

Lemma get_db_choice_eof w s :
  Forall invalid_choice (stdin s) ->
  get_db_choice w s
  = (Raise EOFError,
     {| stdin := []; stats_var := stats_var s;
        trace := trace s ++ banner ++ rounds (length (stdin s)) ++ [choice_prompt] |}).
Proof.
  intros Hall. rewrite get_db_choice_unfold.
  rewrite <- (app_nil_r (stdin s)) at 1.
  rewrite (choice_loop_invalid _ _ _ _ _ Hall). simpl.
  by rewrite <- !app_assoc.
Qed.




(** ** The order of the queries *)

Arguments node_stats_events : simpl never.
Arguments rel_stats_events : simpl never.

Lemma queries_sent_app tr1 tr2 :
  queries_sent (tr1 ++ tr2) = queries_sent tr1 ++ queries_sent tr2.
Proof. apply omap_app. Qed.

Lemma queries_sent_warning pre caught : queries_sent (warning pre caught) = [].
Proof. by destruct caught. Qed.

Lemma queries_sent_rounds n : queries_sent (rounds n) = [].
Proof. induction n as [| n IH]; [reflexivity | exact IH]. Qed.

Lemma queries_sent_node_stats_events w rs broken :
  queries_sent (node_stats_events w rs broken) = [LabelCountQuery; IndexCatalogQuery].
Proof.
  unfold node_stats_events.
  rewrite !queries_sent_app, !queries_sent_warning. reflexivity.
Qed.

Lemma queries_sent_rel_stats_events rs broken :
  queries_sent (rel_stats_events rs broken) = [RelationshipCountQuery].
Proof.
  unfold rel_stats_events.
  rewrite !queries_sent_app, !queries_sent_warning. reflexivity.
Qed.

Lemma get_db_choice_events w s :
  exists n,
    trace (snd (get_db_choice w s)) = trace s ++ banner ++ rounds n ++ [choice_prompt].
Proof.
  destruct (first_valid_choice (stdin s)) as [Hall | (pre & line & rest & Hin & Hpre & Hv)].
  - exists (length (stdin s)). by rewrite (get_db_choice_eof _ _ Hall).
  - exists (length pre).
    rewrite get_db_choice_unfold, Hin, (choice_loop_invalid _ _ _ _ _ Hpre),
      (choice_loop_valid _ _ _ _ _ Hv). simpl. by rewrite <- !app_assoc.
Qed.

Lemma report_queries w tn tr st s :
  exists evs,
    trace (snd (report w tn tr st s)) = trace s ++ evs
    /\ queries_sent evs
       `prefix_of` [LabelCountQuery; IndexCatalogQuery; RelationshipCountQuery].
Proof.
  destruct (label_outcome w) as [e | rs broken] eqn:Hl.
  { rewrite (report_label_run_fails _ _ _ _ _ _ Hl). cbn [snd trace].
    eexists. split; [reflexivity |]. by eexists. }
  destruct (combine (fetched_index_info w) (collected_node_stats w) [])
    as [rows | e] eqn:Hj.
  2:{ rewrite (report_join_raises _ _ _ _ _ _ _ _ Hl Hj). cbn [snd trace].
      eexists. split; [reflexivity |].
      rewrite queries_sent_node_stats_events. by eexists. }
  destruct (tn rows) as [t1 | e] eqn:Htn.
  2:{ rewrite (report_node_table_raises _ _ _ _ _ _ _ _ _ Hl Hj Htn). cbn [snd trace].
      eexists. split; [reflexivity |].
      rewrite queries_sent_app, queries_sent_node_stats_events. by eexists. }
  destruct (rel_outcome w) as [e | rs' broken'] eqn:Hr.
  - rewrite (report_rel_run_fails _ _ _ _ _ _ _ _ _ _ Hl Hj Htn Hr). cbn [snd trace].
    eexists. split; [reflexivity |].
    rewrite queries_sent_app, queries_sent_node_stats_events. by exists [].
  - rewrite (report_rel_rows _ _ _ _ _ _ _ _ _ _ _ Hl Hj Htn Hr). cbn [snd trace].
    eexists. split; [reflexivity |].
    rewrite !queries_sent_app, queries_sent_node_stats_events,
      queries_sent_rel_stats_events.
    exists []. by destruct (tr _).
Qed.

(** The queries of a trace made of known pieces. *)
Ltac queries_tac :=
  unfold queries_sent;
  repeat (progress (rewrite ?omap_app; simpl));
  change (omap run_of) with queries_sent;
  rewrite ?queries_sent_rounds, ?queries_sent_warning; simpl.

(** X14: in a run of [main] the queries sent are a prefix of the label
    count query, the catalog listing and the relationship count query:
    each is sent at most once, in this order, and none is sent again after a
    failure. *)
Theorem X14_queries_in_order w tn tr s :
  exists evs,
    trace (snd (main w tn tr s)) = trace s ++ evs
    /\ queries_sent evs
       `prefix_of` [LabelCountQuery; IndexCatalogQuery; RelationshipCountQuery].
Proof.
  destruct (get_db_choice_events w s) as (n & Hev).
  destruct (get_db_choice w s) as [[creds | e] s1] eqn:Hc; simpl in Hev.
  - destruct (driver_outcome w) as [e |] eqn:Hd.
    + rewrite (main_without_driver _ _ _ _ _ _ _ Hc Hd). simpl. rewrite Hev.
      eexists. split; [by rewrite <- !app_assoc |].
      queries_tac. by eexists.
    + rewrite (main_with_driver _ _ _ _ _ _ Hc Hd). cbn [snd trace].
      set (st := {| driver := (creds.1.1, creds.1.2, creds.2) |}).
      set (s4 := {| stdin := stdin s1; stats_var := Some st;
                    trace := trace s1 ++ [EvDriverOpen creds.1.1 creds.1.2 creds.2] |}).
      destruct (report_queries w tn tr st s4) as (evs & Hevs & Hpre).
      destruct (report w tn tr st s4) as [r s5]. cbn [fst snd] in *.
      rewrite Hevs. unfold s4. cbn [trace]. rewrite Hev.
      exists (banner ++ rounds n ++ [choice_prompt]
              ++ [EvDriverOpen creds.1.1 creds.1.2 creds.2] ++ evs
              ++ warning "Error: " match r with Ok _ => None | Raise e => Some e end
              ++ [EvDriverClose]).
      split; [by norm_trace |].
      rewrite !queries_sent_app, queries_sent_rounds, queries_sent_warning.
      simpl. by rewrite app_nil_r.
  - rewrite main_unfold. unfold bind at 1. rewrite Hc. simpl. rewrite Hev.
    eexists. split; [reflexivity |].
    queries_tac. by eexists.
Qed.

(** ** The counts of the two queries *)

Section GroupSizes.
Context `{EqDecision K}.
Implicit Types (k : K) (l : list K).

Lemma group_size_app k l1 l2 :
  group_size k (l1 ++ l2) = group_size k l1 + group_size k l2.
Proof. unfold group_size. by rewrite filter_app, length_app. Qed.

Lemma group_size_cons k x l :
  group_size k (x :: l) = (if decide (x = k) then 1 else 0) + group_size k l.
Proof. unfold group_size. rewrite filter_cons. by destruct (decide (x = k)). Qed.

Lemma group_size_not_elem_of k l : k ∉ l -> group_size k l = 0.
Proof.
  intros Hk. destruct (group_size k l) as [| n] eqn:E; [done |].
  destruct Hk. apply group_size_pos. lia.
Qed.

Lemma group_size_NoDup k l :
  NoDup l -> group_size k l = if decide (k ∈ l) then 1 else 0.
Proof.
  induction 1 as [| x l Hx _ IH]; [reflexivity |].
  rewrite group_size_cons, IH.
  destruct (decide (x = k)) as [Heq | Hne]; destruct (decide (k ∈ l)) as [Hin | Hnin];
    destruct (decide (k ∈ x :: l)) as [Hin' | Hnin']; try lia; exfalso;
    first [ by subst
          | by (destruct Hnin'; subst; left)
          | by (destruct Hnin'; right)
          | by (apply elem_of_cons in Hin' as [? | ?]; subst) ].
Qed.

Lemma group_size_Permutation k l1 l2 : l1 ≡ₚ l2 -> group_size k l1 = group_size k l2.
Proof. intros HP. unfold group_size. by rewrite HP. Qed.

Lemma group_count_NoDup l : NoDup (group_count l).
Proof.
  apply (NoDup_fmap_1 fst). change (NoDup (map fst (group_count l))).
  rewrite group_count_keys. apply NoDup_remove_dups.
Qed.

Lemma group_count_Permutation l1 l2 : l1 ≡ₚ l2 -> group_count l1 ≡ₚ group_count l2.
Proof.
  intros HP. apply NoDup_Permutation; [apply group_count_NoDup .. |].
  intros [k n]. rewrite !group_count_elem_of, (group_size_Permutation k _ _ HP).
  split; intros [Hin ->]; (split; [| done]); [by rewrite <- HP | by rewrite HP].
Qed.

Lemma sum_group_size_cons keys x l :
  NoDup keys ->
  sum_list_with (fun k => group_size k (x :: l)) keys
  = sum_list_with (fun k => group_size k l) keys
    + (if decide (x ∈ keys) then 1 else 0).
Proof.
  induction 1 as [| k keys Hk _ IH].
  - destruct (decide (x ∈ [])) as [Hin | _];
      [by apply not_elem_of_nil in Hin | reflexivity].
  - change (group_size k (x :: l) + sum_list_with (fun k => group_size k (x :: l)) keys
            = group_size k l + sum_list_with (fun k => group_size k l) keys
              + (if decide (x ∈ k :: keys) then 1 else 0)).
    rewrite IH, group_size_cons.
    destruct (decide (x = k)) as [Heq | Hne];
      destruct (decide (x ∈ keys)) as [Hin | Hnin];
      destruct (decide (x ∈ k :: keys)) as [Hin' | Hnin']; try lia; exfalso;
      first [ by subst
            | by (destruct Hnin'; subst; left)
            | by (destruct Hnin'; right)
            | by (apply elem_of_cons in Hin' as [? | ?]; subst) ].
Qed.

Lemma sum_group_count keys l :
  sum_list_with snd (map (fun k => (k, group_size k l)) keys)
  = sum_list_with (fun k => group_size k l) keys.
Proof. induction keys as [| k keys IH]; [reflexivity |]. simpl. by rewrite IH. Qed.

(** The sizes of all groups add up to the number of rows grouped. *)
Lemma group_count_total l : sum_list_with snd (group_count l) = length l.
Proof.
  unfold group_count. rewrite sum_group_count.
  induction l as [| x l IH]; [reflexivity |]. simpl.
  destruct (decide_rel elem_of x l) as [Hin | Hnin].
  - rewrite (sum_group_size_cons _ _ _ (NoDup_remove_dups l)), IH.
    rewrite decide_True by (by apply elem_of_remove_dups). lia.
  - simpl. rewrite (sum_group_size_cons _ _ _ (NoDup_remove_dups l)), IH.
    rewrite decide_False by (by rewrite elem_of_remove_dups).
    rewrite group_size_cons, decide_True by done.
    rewrite (group_size_not_elem_of _ _ Hnin). lia.
Qed.
End GroupSizes.

(** X15: when the relationship count query answers over the graph [g],
    the counts of the rows [get_relationship_stats] returns add up to the
    number of edges of [g]: every edge is counted in exactly one row. *)
Theorem X15_relationship_counts_total w self s g :
  rel_outcome w = Rows (relationship_count_query g) None ->
  exists groups : list (string * string * string * nat),
    fst (get_relationship_stats w self s) = Ok (map rel_row_of groups)
    /\ sum_list_with snd groups = length (edges g).
Proof.
  intros Hr. exists (merge_sort count_ge (group_count (map edge_key (edges g)))).
  split.
  - rewrite (get_relationship_stats_result _ _ _ _ _ Hr).
    unfold relationship_count_query. by rewrite iterate_rel_records.
  - rewrite (merge_sort_Permutation count_ge _), group_count_total.
    apply length_map.
Qed.

Lemma X15_witness :
  exists groups : list (string * string * string * nat),
    fst (get_relationship_stats (healthy_world example_graph [idx1]) some_stats
           (init_state []))
    = Ok (map rel_row_of groups)
    /\ sum_list_with snd groups = 4.
Proof.
  exact (X15_relationship_counts_total (healthy_world example_graph [idx1]) some_stats
           (init_state []) example_graph eq_refl).
Defined.

(** X16: the relationship table does not depend on the order in which
    the database matches the edges.  Over two graphs with the same edges in
    different orders, [get_relationship_stats] returns the same rows up to
    their order. *)
Theorem X16_relationship_rows_permutation w w' self s g g' :
  rel_outcome w = Rows (relationship_count_query g) None ->
  rel_outcome w' = Rows (relationship_count_query g') None ->
  edges g ≡ₚ edges g' ->
  exists rows rows',
    fst (get_relationship_stats w self s) = Ok rows
    /\ fst (get_relationship_stats w' self s) = Ok rows'
    /\ rows ≡ₚ rows'.
Proof.
  intros Hr Hr' HP.
  exists (map rel_row_of (merge_sort count_ge (group_count (map edge_key (edges g))))),
         (map rel_row_of (merge_sort count_ge (group_count (map edge_key (edges g'))))).
  split; [| split].
  - rewrite (get_relationship_stats_result _ _ _ _ _ Hr).
    unfold relationship_count_query. by rewrite iterate_rel_records.
  - rewrite (get_relationship_stats_result _ _ _ _ _ Hr').
    unfold relationship_count_query. by rewrite iterate_rel_records.
  - apply Permutation_map. rewrite !merge_sort_Permutation.
    apply group_count_Permutation. by apply Permutation_map.
Qed.

Lemma X16_witness :
  exists rows rows',
    fst (get_relationship_stats (healthy_world example_graph [idx1]) some_stats
           (init_state [])) = Ok rows
    /\ fst (get_relationship_stats (healthy_world shuffled_graph [idx1]) some_stats
              (init_state [])) = Ok rows'
    /\ rows ≡ₚ rows'.
Proof.
  apply (X16_relationship_rows_permutation (healthy_world example_graph [idx1])
           (healthy_world shuffled_graph [idx1]) some_stats (init_state [])
           example_graph shuffled_graph eq_refl eq_refl).
  simpl. symmetry. apply reverse_Permutation.
Defined.

Lemma group_size_concat (label : string) (ns : list (list string)) :
  Forall NoDup ns ->
  group_size label (concat ns) = length (filter (fun labels => label ∈ labels) ns).
Proof.
  induction 1 as [| n ns Hn _ IH]; [reflexivity |].
  simpl. rewrite group_size_app, IH, (group_size_NoDup _ _ Hn), filter_cons.
  by destruct (decide (label ∈ n)).
Qed.

(** X17: when the label count query answers over the graph [g], in which
    no node lists a label twice, [get_node_stats] collects one label count
    per label that some node carries, and its count is the number of nodes
    that carry the label; a node without label is counted nowhere. *)
Theorem X17_label_counts_are_node_counts w g :
  label_outcome w = Rows (label_count_query g) None ->
  Forall NoDup (nodes g) ->
  exists counts : list (string * nat),
    collected_node_stats w
    = map (fun c => {| Label := PStr (fst c); Count := PInt (Z.of_nat (snd c)) |}) counts
    /\ NoDup (map fst counts)
    /\ forall label n,
         (label, n) ∈ counts
         <-> n = length (filter (fun labels => label ∈ labels) (nodes g)) /\ 1 <= n.
Proof.
  intros Hl Hnd. exists (merge_sort label_le (group_count (unwind_labels g))).
  split; [| split].
  - unfold collected_node_stats. rewrite Hl. unfold label_count_query.
    by rewrite iterate_label_records.
  - rewrite (Permutation_map fst (merge_sort_Permutation _ _)), group_count_keys.
    apply NoDup_remove_dups.
  - intros label n. rewrite (merge_sort_Permutation label_le _), group_count_elem_of.
    unfold unwind_labels. rewrite <- (group_size_concat _ _ Hnd). split.
    + intros [Hin ->]. split; [done | by apply group_size_pos].
    + intros [-> Hn]. split; [by apply group_size_pos | done].
Qed.

Lemma X17_witness :
  exists counts : list (string * nat),
    collected_node_stats (healthy_world example_graph [idx1])
    = map (fun c => {| Label := PStr (fst c); Count := PInt (Z.of_nat (snd c)) |}) counts
    /\ NoDup (map fst counts)
    /\ forall label n,
         (label, n) ∈ counts
         <-> n = length (filter (fun labels => label ∈ labels) (nodes example_graph))
             /\ 1 <= n.
Proof.
  apply (X17_label_counts_are_node_counts (healthy_world example_graph [idx1])
           example_graph eq_refl).
  apply (bool_decide_unpack _). vm_compute. exact I.
Defined.
